(** * Golf-bay utilisation: label interpreter, record normaliser, rollups

    A shallow embedding of the two scripts of the repository:

    - [golf_scraper.py]: [bookings_from_label], the slot loop of
      [scrape_day], and the daily summary of [main];
    - [scarper_api.py]: [cache_get], the paging loop of [fetch_range]
      and the frame it builds, [classify_season], and the rollup tables
      and chart file names of [main].

    Modelling conventions.

    - A Python [str] is a [string]; a character is its code point, so
      the embedding covers the strings whose code points are below 256.
      On that range [str.lower], the regular expression classes [\d] and
      [\s] and [str.strip] are the functions written out below.
    - Python and pandas integers are [Z]: the sums of a frame are taken
      to stay within the 64 bits of its integer columns.
    - A [float64] column is modelled by exact rationals together with
      the three special values a division can produce; rounding is not
      modelled.
    - A pandas timestamp is the number of nanoseconds since the epoch;
      the time zone attached to the column is a function giving the
      zone's UTC offset at an instant. *)

From Stdlib Require Import ZArith List Bool Ascii String QArith Lia.
From Stdlib Require Import Sorting.Sorted Sorting.Permutation.
From Stdlib Require Import QArith.Qround Lqa.
Import ListNotations.

Local Open Scope string_scope.
Local Open Scope list_scope.
Local Open Scope Z_scope.

(* ------------------------------------------------------------------ *)
(** * golf_scraper.py : the label interpreter                          *)
(* ------------------------------------------------------------------ *)

Module Label.

(** [str.lower] on one code point: the ASCII capitals and the Latin-1
    capitals (all of 0xC0-0xDE but the multiplication sign) move up by 32. *)
Definition lower_char (c : ascii) : ascii :=
  let n := N_of_ascii c in
  if ((65 <=? n) && (n <=? 90))%N
     || ((192 <=? n) && (n <=? 222) && negb (n =? 215))%N
  then ascii_of_N (n + 32) else c.

Fixpoint lower (s : string) : string :=
  match s with
  | EmptyString => EmptyString
  | String c s' => String (lower_char c) (lower s')
  end.

(** [needle in hay]. *)
Fixpoint contains (needle hay : string) : bool :=
  if prefix needle hay then true
  else match hay with
       | EmptyString => false
       | String _ hay' => contains needle hay'
       end.

(** The class [\d]: a decimal digit. *)
Definition is_digit (c : ascii) : bool :=
  let n := N_of_ascii c in ((48 <=? n) && (n <=? 57))%N.

(** The class [\s]: the characters [str.isspace] accepts. *)
Definition is_space (c : ascii) : bool :=
  let n := N_of_ascii c in
  (((9 <=? n) && (n <=? 13)) || ((28 <=? n) && (n <=? 32))
   || (n =? 133) || (n =? 160))%N.

(** The longest prefix of [s] made of characters of class [p], and the
    rest: a greedy [p+] or [p*]. *)
Fixpoint span (p : ascii -> bool) (s : string) : string * string :=
  match s with
  | EmptyString => (EmptyString, EmptyString)
  | String c s' =>
      if p c then let (a, b) := span p s' in (String c a, b)
      else (EmptyString, s)
  end.

(** A literal of the pattern under [re.I]: a character matches a
    lower-case pattern letter when its lower-case form is that letter. *)
Fixpoint prefix_ci (pat s : string) : bool :=
  match pat with
  | EmptyString => true
  | String p pat' =>
      match s with
      | EmptyString => false
      | String c s' => Ascii.eqb (lower_char c) p && prefix_ci pat' s'
      end
  end.

(** The pattern [(\d+)\s*/\s*(\d+)\s*open] anchored at the start of [s];
    the result is the pair of groups.  Each repetition is followed by a
    character outside its class, so the greedy choice is the only one
    that can succeed ([match_here_iff] below). *)
Definition match_here (s : string) : option (string * string) :=
  let (g1, r1) := span is_digit s in
  match g1 with
  | EmptyString => None
  | _ =>
      match snd (span is_space r1) with
      | String "/" r2 =>
          let (g2, r3) := span is_digit (snd (span is_space r2)) in
          match g2 with
          | EmptyString => None
          | _ =>
              if prefix_ci "open" (snd (span is_space r3))
              then Some (g1, g2) else None
          end
      | _ => None
      end
  end.

(** [allb p s]: every character of [s] is of class [p]. *)
Fixpoint allb (p : ascii -> bool) (s : string) : bool :=
  match s with
  | EmptyString => true
  | String c s' => p c && allb p s'
  end.

(** [s] does not start with a character of class [p]. *)
Definition head_not (p : ascii -> bool) (s : string) : Prop :=
  match s with
  | EmptyString => True
  | String c _ => p c = false
  end.

(** The language of the pattern, read off the expression: [s] starts
    with a word of the pattern whose groups are [g1] and [g2]. *)
Definition matches_here (s g1 g2 : string) : Prop :=
  exists w1 w2 w3 o rest,
    s = (g1 ++ w1 ++ "/" ++ w2 ++ g2 ++ w3 ++ o ++ rest)%string
    /\ g1 <> EmptyString /\ allb is_digit g1 = true
    /\ allb is_space w1 = true /\ allb is_space w2 = true
    /\ g2 <> EmptyString /\ allb is_digit g2 = true
    /\ allb is_space w3 = true
    /\ lower o = "open".

(** [re.search]: the match at the leftmost position that has one. *)
Fixpoint re_search (s : string) : option (string * string) :=
  match match_here s with
  | Some g => Some g
  | None =>
      match s with
      | EmptyString => None
      | String _ s' => re_search s'
      end
  end.

Definition digit_value (c : ascii) : Z := Z.of_N (N_of_ascii c) - 48.

(** [int] on a string of decimal digits (the interpreter's limit on the
    number of digits it converts is not modelled). *)
Definition int_of_digits (s : string) : Z :=
  fold_left (fun acc c => 10 * acc + digit_value c) (list_ascii_of_string s) 0.

Definition bookings_from_label (text : string) : Z :=
  let text := lower text in
  if contains "waitlist" text then 4
  else
    match re_search text with
    | None => if contains "(1/2 open)" (lower text) then 2 else 0
    | Some (g1, g2) =>
        let open_cnt := int_of_digits g1 in
        let total := int_of_digits g2 in
        if total =? 4 then 4 - open_cnt
        else if total =? 2 then 2
        else 0
    end.

(** The same function with the [(1/2 open)] test under [if not m]
    deleted. *)
Definition bookings_from_label_no_fallback (text : string) : Z :=
  let text := lower text in
  if contains "waitlist" text then 4
  else
    match re_search text with
    | None => 0
    | Some (g1, g2) =>
        let open_cnt := int_of_digits g1 in
        let total := int_of_digits g2 in
        if total =? 4 then 4 - open_cnt
        else if total =? 2 then 2
        else 0
    end.

(** The interpreter as the specification words its four rules, for a set
    [known] of known capacity values: rule 2 applies to a match whose
    total is known and otherwise falls through to rules 3 and 4. *)
Definition interpret_spec (known : Z -> bool) (label : string)
    (default_capacity : Z) : Z :=
  let text := lower label in
  if contains "waitlist" text then default_capacity
  else
    let later_rules := if contains "(1/2 open)" text then 2 else 0 in
    match re_search text with
    | Some (g1, g2) =>
        let open_cnt := int_of_digits g1 in
        let total := int_of_digits g2 in
        if known total then total - open_cnt else later_rules
    | None => later_rules
    end.

End Label.


(* ------------------------------------------------------------------ *)
(** * golf_scraper.py : the slot loop of [scrape_day]                  *)
(* ------------------------------------------------------------------ *)

Module Scraper.
Import Label.

(** [str.lstrip] and [str.rstrip] without argument. *)
Definition lstrip (s : string) : string := snd (span is_space s).

Fixpoint rstrip (s : string) : string :=
  match s with
  | EmptyString => EmptyString
  | String c s' =>
      match rstrip s' with
      | EmptyString => if is_space c then EmptyString else String c EmptyString
      | t => String c t
      end
  end.

Definition strip (s : string) : string := rstrip (lstrip s).

(** One element of [slots]: the text of its time element and of its
    status element, [None] for an element [query_selector] does not find. *)
Record Slot := { time_elem : option string; status_elem : option string }.

Section ScrapeDay.

(** The type of [datetime.time] values. *)
Variable Time : Type.

(** [datetime.strptime(_, '%I:%M %p').time()]; [None] when it raises. *)
Variable strptime : string -> option Time.

Record Booking := {
  date : string;
  time : Time;
  status : string;
  booked_bays : Z
}.

(** What the code from the slot query to the [return] prints. *)
Inductive Printed :=
| NoTimeSlotsFound
| ErrorParsingSlot (slot : Slot).

(** The body of [for slot in slots], on the list [bookings] and on what
    has been printed so far. *)
Definition scrape_slot (date_str : string)
    (acc : list Booking * list Printed) (slot : Slot)
  : list Booking * list Printed :=
  match time_elem slot, status_elem slot with
  | Some time_text, Some status_text =>
      match strptime (strip time_text) with
      | Some t =>
          (fst acc ++ [ {| date := date_str;
                           time := t;
                           status := strip status_text;
                           booked_bays := bookings_from_label status_text |} ],
           snd acc)
      | None => (fst acc, snd acc ++ [ErrorParsingSlot slot])
      end
  | _, _ => acc
  end.

(** [scrape_day] from [if not slots] on: the rows of the returned frame
    and what was printed. *)
Definition scrape_day_rows (date_str : string) (slots : list Slot)
  : list Booking * list Printed :=
  match slots with
  | [] => ([], [NoTimeSlotsFound])
  | _ => fold_left (scrape_slot date_str) slots ([], [])
  end.

End ScrapeDay.

Arguments date {Time} _.
Arguments time {Time} _.
Arguments status {Time} _.
Arguments booked_bays {Time} _.
Arguments scrape_slot {Time} strptime date_str acc slot.
Arguments scrape_day_rows {Time} strptime date_str slots.

End Scraper.

(* ------------------------------------------------------------------ *)
(** * pandas: float columns, [groupby], [sort_values]                  *)
(* ------------------------------------------------------------------ *)

Module Frame.

(** A [float64] value: a rational, an infinity or NaN. *)
Inductive float64 :=
| Fin (q : Q)
| PInf
| NInf
| NaN.

(** [a / b] on two integer columns: a float; a zero divisor gives an
    infinity, or NaN for [0 / 0]. *)
Definition truediv (a b : Z) : float64 :=
  if b =? 0 then
    if a =? 0 then NaN else if 0 <? a then PInf else NInf
  else Fin (Qred (inject_Z a / inject_Z b)).

Definition fadd (x y : float64) : float64 :=
  match x, y with
  | NaN, _ | _, NaN => NaN
  | Fin a, Fin b => Fin (Qred (a + b))
  | PInf, NInf | NInf, PInf => NaN
  | PInf, _ | _, PInf => PInf
  | NInf, _ | _, NInf => NInf
  end.

Definition fdiv_count (x : float64) (n : nat) : float64 :=
  match x with
  | Fin a => Fin (Qred (a / inject_Z (Z.of_nat n)))
  | other => other
  end.

Definition notna (x : float64) : bool :=
  match x with NaN => false | _ => true end.

(** The aggregation ["mean"]: NaN entries are skipped; the mean of no
    entry is NaN. *)
Definition mean (l : list float64) : float64 :=
  match filter notna l with
  | [] => NaN
  | vals => fdiv_count (fold_left fadd vals (Fin 0)) (List.length vals)
  end.

(** The aggregation ["sum"] on an integer column. *)
Definition sumZ {A : Type} (f : A -> Z) (l : list A) : Z :=
  fold_left (fun acc r => acc + f r) l 0.

(** Comparison of group keys. *)
Class Cmp (K : Type) := kcmp : K -> K -> comparison.

#[global] Instance Cmp_Z : Cmp Z := Z.compare.
#[global] Instance Cmp_string : Cmp string := String.compare.
#[global] Instance Cmp_pair {A B : Type} `{Cmp A} `{Cmp B} : Cmp (A * B) :=
  fun x y =>
    match kcmp (fst x) (fst y) with
    | Eq => kcmp (snd x) (snd y)
    | c => c
    end.

(** What the proofs need of a comparison: it decides equality and is a
    strict total order. *)
Class CmpLaws (K : Type) `{Cmp K} : Prop := {
  kcmp_eq : forall a b : K, kcmp a b = Eq -> a = b;
  kcmp_refl : forall a : K, kcmp a a = Eq;
  kcmp_antisym : forall a b : K, kcmp b a = CompOpp (kcmp a b);
  kcmp_trans : forall a b c : K,
      kcmp a b = Lt -> kcmp b c = Lt -> kcmp a c = Lt
}.

Definition klt {K : Type} `{Cmp K} (a b : K) : Prop := kcmp a b = Lt.

Definition keqb {K : Type} `{Cmp K} (a b : K) : bool :=
  match kcmp a b with Eq => true | _ => false end.

Definition kleb {K : Type} `{Cmp K} (a b : K) : bool :=
  match kcmp a b with Gt => false | _ => true end.

Section GroupBy.
Context {R K : Type} `{Cmp K}.
Variable key : R -> K.

(** The distinct keys in increasing order. *)
Fixpoint insert_key (k : K) (ks : list K) : list K :=
  match ks with
  | [] => [k]
  | k' :: ks' =>
      match kcmp k k' with
      | Lt => k :: ks
      | Eq => ks
      | Gt => k' :: insert_key k ks'
      end
  end.

Definition group_keys (rows : list R) : list K :=
  fold_right (fun r ks => insert_key (key r) ks) [] rows.

(** The rows of one group, in frame order. *)
Definition members (k : K) (rows : list R) : list R :=
  filter (fun r => keqb (key r) k) rows.

(** [rows.groupby(key).agg(...)]: one output row per distinct key, in
    increasing key order, computed from the key and the rows of its group. *)
Definition groupby {Out : Type} (agg : K -> list R -> Out) (rows : list R)
  : list Out :=
  map (fun k => agg k (members k rows)) (group_keys rows).

(** [rows.sort_values(key)]. *)
Fixpoint insert_row (r : R) (rows : list R) : list R :=
  match rows with
  | [] => [r]
  | r' :: rows' =>
      if kleb (key r) (key r') then r :: rows else r' :: insert_row r rows'
  end.

Definition sort_values (rows : list R) : list R :=
  fold_right insert_row [] rows.

End GroupBy.

End Frame.

(* ------------------------------------------------------------------ *)
(** * scarper_api.py                                                   *)
(* ------------------------------------------------------------------ *)

Module Api.
Import Frame.

(** One element of the ["results"] of a page. *)
Record ApiRecord := {
  api_id : Z;
  location_name : string;
  api_capacity : Z;
  available_spot_count : Z;
  start_datetime : string
}.

(** One row of the frame [fetch_range] returns. *)
Record Row := {
  id : Z;
  location : string;
  capacity : Z;
  bays_booked : Z;
  util : float64;
  start_dt : Z
}.

Section FetchRange.

(** [pd.to_datetime(_, utc=True)] on one value, in nanoseconds since the
    epoch; [None] when it raises. *)
Variable to_datetime_utc : string -> option Z.

Definition normalize_record (r : ApiRecord) : option Row :=
  match to_datetime_utc (start_datetime r) with
  | Some t =>
      let booked := api_capacity r - available_spot_count r in
      Some {| id := api_id r;
              location := location_name r;
              capacity := api_capacity r;
              bays_booked := booked;
              util := truediv booked (api_capacity r);
              start_dt := t |}
  | None => None
  end.

Fixpoint normalize_records (rows : list ApiRecord) : option (list Row) :=
  match rows with
  | [] => Some []
  | r :: rows' =>
      match normalize_record r, normalize_records rows' with
      | Some x, Some xs => Some (x :: xs)
      | _, _ => None
      end
  end.

(** [fetch_range] from [pd.json_normalize(rows)] on; [None] when it
    raises: on a value that is no timestamp, and on an empty [rows],
    whose frame has no column [start_datetime]. *)
Definition fetch_range_frame (rows : list ApiRecord) : option (list Row) :=
  match rows with
  | [] => None
  | _ => normalize_records rows
  end.

End FetchRange.

Definition classify_season (month : Z) : string :=
  if (month =? 12) || (month =? 1) || (month =? 2) then "Winter"
  else if (month =? 3) || (month =? 4) || (month =? 5) then "Spring"
  else if (month =? 6) || (month =? 7) || (month =? 8) then "Summer"
  else "Fall".

Definition NS_PER_DAY : Z := 86400 * 1000000000.

Definition dow_order : list string :=
  ["Monday"; "Tuesday"; "Wednesday"; "Thursday"; "Friday"; "Saturday"; "Sunday"].

(** [day_name()] of a calendar date given as its number of days since
    1970-01-01, a Thursday. *)
Definition day_name (days : Z) : string :=
  nth (Z.to_nat ((days + 3) mod 7)) dow_order "".

(** The month, 1 to 12, of a calendar date given as its number of days
    since 1970-01-01 (proleptic Gregorian calendar). *)
Definition month_of_days (days : Z) : Z :=
  let z := days + 719468 in
  let era := z / 146097 in
  let doe := z - era * 146097 in
  let yoe := (doe - doe / 1460 + doe / 36524 - doe / 146096) / 365 in
  let doy := doe - (365 * yoe + yoe / 4 - yoe / 100) in
  let mp := (5 * doy + 2) / 153 in
  if mp <? 10 then mp + 3 else mp - 9.

Record HourRow := {
  hour_location : string;
  hour_start_dt : Z;
  bay_hours_offered : Z;
  bay_hours_sold : Z;
  hour_utilisation : float64
}.

Record DayRow := {
  day_location : string;
  date_local : Z;
  dow : string;
  hours_offered : Z;
  hours_sold : Z;
  utilisation : float64
}.

Record DowRow := {
  dow_location : string;
  dow_name : string;
  avg_utilisation : float64
}.

(** The code of a value of [pd.Categorical(_, categories=cats)]: its
    position in [cats]; a value outside [cats] is missing and sorts last. *)
Fixpoint category_code (cats : list string) (s : string) : Z :=
  match cats with
  | [] => 0
  | c :: cats' => if String.eqb c s then 0 else 1 + category_code cats' s
  end.

Definition season_order : list string := ["Winter"; "Spring"; "Summer"; "Fall"].

Section Main.

(** The zone [EASTERN]: its UTC offset, in nanoseconds, at an instant. *)
Variable utcoffset : Z -> Z.

(** [.dt.date] of a timestamp of the zone, in days since 1970-01-01. *)
Definition local_date (t : Z) : Z := (t + utcoffset t) / NS_PER_DAY.

Definition hour_key (r : Row) : string * Z := (location r, start_dt r).

(** Table 1. *)
Definition df_hour (df : list Row) : list HourRow :=
  groupby hour_key
    (fun k grp =>
       let offered := sumZ capacity grp in
       let sold := sumZ bays_booked grp in
       {| hour_location := fst k;
          hour_start_dt := snd k;
          bay_hours_offered := offered;
          bay_hours_sold := sold;
          hour_utilisation := truediv sold offered |})
    df.

(** The key columns of a row of table 1. *)
Definition hour_row_key (h : HourRow) : string * Z :=
  (hour_location h, hour_start_dt h).

(** The day group a record of the frame falls in. *)
Definition row_day_key (r : Row) : string * Z * string :=
  (location r, local_date (start_dt r), day_name (local_date (start_dt r))).

Definition day_key (h : HourRow) : string * Z * string :=
  (hour_location h, local_date (hour_start_dt h),
   day_name (local_date (hour_start_dt h))).

(** Table 2. *)
Definition df_day (hours : list HourRow) : list DayRow :=
  groupby day_key
    (fun k grp =>
       let offered := sumZ bay_hours_offered grp in
       let sold := sumZ bay_hours_sold grp in
       {| day_location := fst (fst k);
          date_local := snd (fst k);
          dow := snd k;
          hours_offered := offered;
          hours_sold := sold;
          utilisation := truediv sold offered |})
    hours.

(** The key columns of a row of table 2. *)
Definition day_row_key (d : DayRow) : string * Z * string :=
  (day_location d, date_local d, dow d).

Definition dow_key (d : DayRow) : string * string := (day_location d, dow d).

(** The columns [sort_values] orders table 3 by, [dow] as the code of
    its category. *)
Definition dow_sort_key (w : DowRow) : string * Z :=
  (dow_location w, category_code dow_order (dow_name w)).

(** The aggregation [avg_utilisation=("utilisation", "mean")]. *)
Definition dow_agg (k : string * string) (grp : list DayRow) : DowRow :=
  {| dow_location := fst k;
     dow_name := snd k;
     avg_utilisation := mean (map utilisation grp) |}.

(** Table 3: the group means, then the rows put in Monday to Sunday
    order within each location. *)
Definition dow_avg (days : list DayRow) : list DowRow :=
  sort_values dow_sort_key (groupby dow_key dow_agg days).

Definition season (d : DayRow) : string :=
  classify_season (month_of_days (date_local d)).

(** [grp.groupby("season")["utilisation"].mean()]: one entry per
    category of the column, in category order. *)
Definition season_avg (grp : list DayRow) : list (string * float64) :=
  map (fun s =>
         (s, mean (map utilisation
                     (filter (fun d => String.eqb (season d) s) grp))))
      season_order.

(** Table 4: [season_avg] for each [loc, grp] of
    [df_day.groupby("location")]. *)
Definition season_avgs (days : list DayRow)
  : list (string * list (string * float64)) :=
  groupby day_location (fun loc grp => (loc, season_avg grp)) days.

Record Tables := {
  t_hour : list HourRow;
  t_day : list DayRow;
  t_dow : list DowRow;
  t_season : list (string * list (string * float64))
}.

(** The four rollups [main] derives from the frame [df]. *)
Definition main_tables (df : list Row) : Tables :=
  let hours := df_hour df in
  let days := df_day hours in
  {| t_hour := hours;
     t_day := days;
     t_dow := dow_avg days;
     t_season := season_avgs days |}.

End Main.

(** Row [a] comes before row [b] in table 3: an earlier location, or
    the same location and an earlier day of the week, Monday first. *)
Definition dow_before (a b : DowRow) : Prop :=
  String.compare (dow_location a) (dow_location b) = Lt
  \/ (dow_location a = dow_location b
      /\ category_code dow_order (dow_name a)
         < category_code dow_order (dow_name b)).

(** A zone with the same offset, in hours, at every instant. *)
Definition fixed_offset (hours : Z) : Z -> Z :=
  fun _ => hours * 3600 * 1000000000.

(** Two records of one location, at 10:00 on Monday 2024-01-01 and on
    Monday 2024-01-08 in a zone five hours behind UTC. *)
Definition two_mondays : list Row :=
  [ {| id := 1; location := "Tribeca"; capacity := 4; bays_booked := 4;
       util := truediv 4 4; start_dt := 1704121200000000000 |};
    {| id := 2; location := "Tribeca"; capacity := 12; bays_booked := 0;
       util := truediv 0 12; start_dt := 1704726000000000000 |} ].

End Api.

(* ------------------------------------------------------------------ *)
(** * golf_scraper.py : [main]                                         *)
(* ------------------------------------------------------------------ *)

Module ScraperMain.
Import Label Scraper Frame.

(** Rounding to the nearest integer, a tie going to the even one. *)
Definition round_half_even (x : Q) : Z :=
  let f := Qfloor x in
  match Qcompare (x - inject_Z f) (1 # 2) with
  | Lt => f
  | Gt => f + 1
  | Eq => if Z.even f then f else f + 1
  end.

(** [.round(3)] on a float column. *)
Definition round3 (x : float64) : float64 :=
  match x with
  | Fin q => Fin (Qred (inject_Z (round_half_even (q * 1000)) / 1000))
  | other => other
  end.

(** One row of [summary]: the index [date] and the columns [sum],
    [count] and [utilization]. *)
Record SummaryRow := {
  summary_date : string;
  summary_sum : Z;
  summary_count : Z;
  utilization : float64
}.

Section Main.
Variable Time : Type.
Variable strptime : string -> option Time.

(** What the page of a day shows: the elements the slot query returns. *)
Variable slots_of : string -> list Slot.

(** [df.groupby("date")["booked_bays"].agg(['sum', 'count'])
      .eval('utilization = sum / (count * 4)').round(3)]. *)
Definition daily_summary (df : list (Booking Time)) : list SummaryRow :=
  groupby date
    (fun k grp =>
       let sum := sumZ booked_bays grp in
       let count := Z.of_nat (List.length grp) in
       {| summary_date := k;
          summary_sum := sum;
          summary_count := count;
          utilization := round3 (truediv sum (count * 4)) |})
    df.

(** How [main] ends. *)
Inductive MainOutcome :=
| NoFrames
| KeyErrorDate
| Summary (summary : list SummaryRow).

(** [main], for the list [days] of the dates of the next seven days:
    the slice [days[0:1]] is scraped; with no frame nothing is computed;
    the concatenation of frames without a row has no column [date], on
    which [groupby] raises. *)
Definition main (days : list string) : MainOutcome :=
  let days := firstn 1 days in
  let frames :=
    map (fun day => fst (scrape_day_rows strptime day (slots_of day))) days in
  match frames with
  | [] => NoFrames
  | _ =>
      match List.concat frames with
      | [] => KeyErrorDate
      | df => Summary (daily_summary df)
      end
  end.

End Main.

Arguments daily_summary {Time} df.
Arguments main {Time} strptime slots_of days.

End ScraperMain.

(* ------------------------------------------------------------------ *)
(** * scarper_api.py : [cache_get] and the paging loop of [fetch_range] *)
(* ------------------------------------------------------------------ *)

Module Cache.
Import Frame Api.

Definition BASE_URL : string :=
  "https://golfv2.marianatek.com/api/customer/v1/classes".

Definition REGION_ID : Z := 48541.

(** A value of the dict [params]. *)
Inductive PVal :=
| PStr (s : string)
| PInt (n : Z).

(** A dict of query parameters: its items in insertion order. *)
Definition Params : Type := list (string * PVal).

(** A JSON payload of the endpoint, by the two keys [fetch_range] reads;
    [next] is [None] for [null]. *)
Record Page := { results : list ApiRecord; next : option string }.

(** The directory [CACHEDIR]: the payload stored under a file name
    ([json.load] gives back what [json.dump] wrote). *)
Definition Files : Type := string -> option Page.

Definition no_files : Files := fun _ => None.

Definition write_file (files : Files) (fname : string) (data : Page) : Files :=
  fun f => if String.eqb f fname then Some data else files f.

(** Every file of [a] is in [b], with the same payload. *)
Definition extends (a b : Files) : Prop :=
  forall f data, a f = Some data -> b f = Some data.

(** Truth value of [url] in [while url:] and [if url]. *)
Definition truthy (url : option string) : bool :=
  match url with
  | Some (String _ _) => true
  | _ => false
  end.

Section CacheGet.

(** [urllib.parse.urlencode], [urllib.parse.quote_plus] and
    [urllib.parse.urljoin]. *)
Variable urlencode : Params -> string.
Variable quote_plus : string -> string.
Variable urljoin : string -> string -> string.

(** [requests.get(url, params=params, ...)] followed by
    [raise_for_status()] and [json()]; [None] when one of them raises. *)
Variable get : string -> option Params -> option Page.

(** [sorted(params.items())]: the keys of a dict are distinct, so the
    items are ordered by key. *)
Definition sorted_items (params : Params) : Params :=
  sort_values fst params.

Definition cache_key (url : string) (params : option Params) : string :=
  match params with
  | Some ((_ :: _) as items) =>
      (url ++ "?" ++ urlencode (sorted_items items))%string
  | _ => url
  end.

Definition cache_file (url : string) (params : option Params) : string :=
  (quote_plus (cache_key url params) ++ ".json")%string.

(** [cache_get], on the files of [CACHEDIR]: the payload, [None] when
    the request raises, and the files afterwards. *)
Definition cache_get (files : Files) (url : string) (params : option Params)
  : option Page * Files :=
  let fname := cache_file url params in
  match files fname with
  | Some data => (Some data, files)
  | None =>
      match get url params with
      | Some data => (Some data, write_file files fname data)
      | None => (None, files)
      end
  end.

(** How the paging loop ends: with the rows collected, with an
    exception of [cache_get], or not within the given number of rounds. *)
Inductive Paging :=
| Rows (rows : list ApiRecord)
| Raised
| Unfinished.

(** The value of [url] after a round: [j["next"]], joined to
    [BASE_URL] when it is relative. *)
Definition next_url (j : Page) : option string :=
  match next j with
  | Some u =>
      if truthy (Some u) && negb (prefix "http" u)
      then Some (urljoin BASE_URL u)
      else Some u
  | None => None
  end.

(** [while url:] of [fetch_range], for at most [fuel] rounds. *)
Fixpoint fetch_pages (fuel : nat) (files : Files) (url : option string)
    (params : option Params) (rows : list ApiRecord) : Paging * Files :=
  match url with
  | Some (String _ _ as this) =>
      match fuel with
      | O => (Unfinished, files)
      | S fuel' =>
          match cache_get files this params with
          | (None, files') => (Raised, files')
          | (Some j, files') =>
              fetch_pages fuel' files' (next_url j) None (rows ++ results j)
          end
      end
  | _ => (Rows rows, files)
  end.

(** The dict [params] of the first request. *)
Definition range_params (start stop : string) (region : Z) : Params :=
  [ ("min_start_date", PStr start);
    ("max_start_date", PStr stop);
    ("page_size", PInt 500);
    ("region", PInt region);
    ("format", PStr "json") ].

(** The rows [fetch_range] collects before it builds the frame. *)
Definition fetch_range_rows (fuel : nat) (files : Files)
    (start stop : string) (region : Z) : Paging * Files :=
  fetch_pages fuel files (Some BASE_URL)
    (Some (range_params start stop region)) [].

(** The requests of a run over the pages [pages]: the request for [url]
    with [params] is answered by the first page, the request for its
    next url, without parameters, by the second, and so on; the last
    page has no next url. *)
Fixpoint serves (url : option string) (params : option Params)
    (pages : list Page) : Prop :=
  match pages with
  | [] => truthy url = false
  | j :: rest =>
      match url with
      | Some this =>
          truthy url = true
          /\ get this params = Some j
          /\ serves (next_url j) None rest
      | None => False
      end
  end.

(** The cache files of the requests of such a run. *)
Fixpoint request_files (url : option string) (params : option Params)
    (pages : list Page) : list string :=
  match pages, url with
  | j :: rest, Some this =>
      cache_file this params :: request_files (next_url j) None rest
  | _, _ => []
  end.

End CacheGet.

(** How [fetch_range] ends: with its frame, with an exception, or not
    within the given number of rounds of the paging loop. *)
Inductive Fetched :=
| Frame (df : list Row)
| FetchRaised
| FetchUnfinished.

(** [fetch_range]: the paging loop, then the frame of the rows. *)
Definition fetch_range (urlencode : Params -> string)
    (quote_plus : string -> string) (urljoin : string -> string -> string)
    (get : string -> option Params -> option Page)
    (to_datetime_utc : string -> option Z)
    (fuel : nat) (files : Files) (start stop : string) (region : Z)
  : Fetched * Files :=
  match fetch_range_rows urlencode quote_plus urljoin get fuel files
          start stop region with
  | (Rows rows, files') =>
      (match fetch_range_frame to_datetime_utc rows with
       | Some df => Frame df
       | None => FetchRaised
       end, files')
  | (Raised, files') => (FetchRaised, files')
  | (Unfinished, files') => (FetchUnfinished, files')
  end.

(** Two pages of one record each, the first with a relative next url,
    and a network that answers the base url with the first page and
    every other url with the second. *)
Definition first_page : Page :=
  {| results := [ {| api_id := 1; location_name := "Tribeca";
                     api_capacity := 4; available_spot_count := 1;
                     start_datetime := "2024-01-01T15:00:00Z" |} ];
     next := Some "?page=2" |}.

Definition last_page : Page :=
  {| results := [ {| api_id := 2; location_name := "Tribeca";
                     api_capacity := 4; available_spot_count := 3;
                     start_datetime := "2024-01-01T16:00:00Z" |} ];
     next := None |}.

Definition two_page_network (url : string) (_ : option Params)
  : option Page :=
  if String.eqb url BASE_URL then Some first_page else Some last_page.

End Cache.

(* ------------------------------------------------------------------ *)
(** * scarper_api.py : the names of the chart files of [main]          *)
(* ------------------------------------------------------------------ *)

Module Charts.
Import Label.

(** [str.replace(' ', '_')]. *)
Fixpoint underscores (s : string) : string :=
  match s with
  | EmptyString => EmptyString
  | String c s' =>
      String (if Ascii.eqb c " " then "_"%char else c) (underscores s')
  end.

(** [f"{loc.lower().replace(' ','_')}_seasonality.png"] and
    [f"{loc.lower().replace(' ','_')}_season_avg.png"]. *)
Definition seasonality_png (loc : string) : string :=
  (underscores (lower loc) ++ "_seasonality.png")%string.

Definition season_avg_png (loc : string) : string :=
  (underscores (lower loc) ++ "_season_avg.png")%string.

End Charts.

(* ------------------------------------------------------------------ *)
(** * Values between 0 and 1                                           *)
(* ------------------------------------------------------------------ *)

Module Interval.
Import Frame.

(** A float that is a number between 0 and 1: the range the charts of
    [main] are drawn in ([plt.ylim(0, 1)]). *)
Definition unit_interval (x : float64) : Prop :=
  exists q, x = Fin q /\ (0 <= q <= 1)%Q.

End Interval.


(* ------------------------------------------------------------------ *)
(** * Facts about the label interpreter                                *)
(* ------------------------------------------------------------------ *)

Module LabelFacts.
Import Label.

Lemma append_assoc (a b c : string) :
  ((a ++ b) ++ c)%string = (a ++ (b ++ c))%string.
Proof. induction a as [|x a IH]; simpl; [reflexivity | now rewrite IH]. Qed.

Lemma lower_app (a b : string) :
  lower (a ++ b) = (lower a ++ lower b)%string.
Proof. induction a as [|x a IH]; simpl; [reflexivity | now rewrite IH]. Qed.

(** ** [span] *)

Lemma span_spec (p : ascii -> bool) (s a b : string) :
  span p s = (a, b) ->
  s = (a ++ b)%string /\ allb p a = true /\ head_not p b.
Proof.
  revert a b. induction s as [|c s IH]; simpl; intros a b E.
  - inversion E; subst. repeat split.
  - destruct (p c) eqn:Pc.
    + destruct (span p s) as [a' b'] eqn:Es. inversion E; subst.
      destruct (IH _ _ eq_refl) as (-> & Ha & Hb).
      simpl. rewrite Pc, Ha. repeat split. exact Hb.
    + inversion E; subst. simpl. repeat split. exact Pc.
Qed.

Lemma span_app (p : ascii -> bool) (a b : string) :
  allb p a = true -> head_not p b -> span p (a ++ b) = (a, b).
Proof.
  induction a as [|c a IH]; simpl; intros Ha Hb.
  - destruct b as [|x b]; simpl in *; [reflexivity | now rewrite Hb].
  - apply andb_true_iff in Ha. destruct Ha as [Pc Ha].
    rewrite Pc, (IH Ha Hb). reflexivity.
Qed.

Lemma head_not_app (p : ascii -> bool) (a b : string) (q : ascii -> bool) :
  (forall c, q c = true -> p c = false) ->
  allb q a = true -> head_not p b -> head_not p (a ++ b).
Proof.
  intros Hqp Ha Hb. destruct a as [|c a]; simpl in *; [exact Hb|].
  apply andb_true_iff in Ha. apply Hqp, Ha.
Qed.

(** ** The character classes of the pattern are pairwise disjoint *)

Ltac by_cases c :=
  destruct c as [[|] [|] [|] [|] [|] [|] [|] [|]];
  vm_compute; intros; congruence.

Lemma space_not_digit c : is_space c = true -> is_digit c = false.
Proof. by_cases c. Qed.

Lemma digit_not_space c : is_digit c = true -> is_space c = false.
Proof. by_cases c. Qed.

Lemma letter_o_not_digit c : lower_char c = "o"%char -> is_digit c = false.
Proof. by_cases c. Qed.

Lemma letter_o_not_space c : lower_char c = "o"%char -> is_space c = false.
Proof. by_cases c. Qed.

Lemma lower_char_idem c : lower_char (lower_char c) = lower_char c.
Proof. by_cases c. Qed.

Lemma lower_idem s : lower (lower s) = lower s.
Proof.
  induction s as [|c s IH]; simpl; [reflexivity|].
  now rewrite lower_char_idem, IH.
Qed.

(** ** The literal [open] under [re.I] *)

Lemma prefix_ci_spec (pat s : string) :
  prefix_ci pat s = true <->
  exists o rest, s = (o ++ rest)%string /\ lower o = pat.
Proof.
  revert s. induction pat as [|p pat IH]; intros s; simpl.
  - split; [intros _; exists EmptyString, s; split; reflexivity | reflexivity].
  - destruct s as [|c s].
    + split; [discriminate|]. intros (o & rest & E & L).
      destruct o; simpl in *; discriminate.
    + rewrite andb_true_iff, IH. split.
      * intros [Hc (o & rest & -> & <-)]. apply Ascii.eqb_eq in Hc.
        exists (String c o), rest. simpl. now rewrite Hc.
      * intros (o & rest & E & L). destruct o as [|x o]; simpl in *;
          [discriminate|]. inversion E; subst. inversion L; subst.
        split; [apply Ascii.eqb_refl | exists o, rest; split; reflexivity].
Qed.

(** ** The anchored matcher accepts exactly the language of the pattern *)

Lemma match_here_sound (s g1 g2 : string) :
  match_here s = Some (g1, g2) -> matches_here s g1 g2.
Proof.
  unfold match_here. intros E.
  destruct (span is_digit s) as [a r1] eqn:E1.
  destruct a as [|c a]; [discriminate|].
  destruct (span is_space r1) as [w1 t1] eqn:E2. cbn [snd] in E.
  destruct t1 as [|x r2]; [discriminate|].
  destruct (Ascii.eqb_spec x "/"%char) as [->|N].
  2:{ destruct x as [[|] [|] [|] [|] [|] [|] [|] [|]];
      try discriminate; exfalso; apply N; reflexivity. }
  destruct (span is_space r2) as [w2 t2] eqn:E3. cbn [snd] in E.
  destruct (span is_digit t2) as [b r3] eqn:E4.
  destruct b as [|d b]; [discriminate|].
  destruct (span is_space r3) as [w3 t3] eqn:E5. cbn [snd] in E.
  destruct (prefix_ci "open" t3) eqn:E6; [|discriminate].
  inversion E; subst g1 g2; clear E.
  apply span_spec in E1, E2, E3, E4, E5.
  destruct E1 as (-> & D1 & _), E2 as (-> & S1 & _), E3 as (-> & S2 & _),
           E4 as (-> & D2 & _), E5 as (-> & S3 & _).
  apply prefix_ci_spec in E6. destruct E6 as (o & rest & -> & L).
  exists w1, w2, w3, o, rest.
  repeat split; try assumption; try discriminate.
Qed.

Lemma match_here_complete (s g1 g2 : string) :
  matches_here s g1 g2 -> match_here s = Some (g1, g2).
Proof.
  intros (w1 & w2 & w3 & o & rest & -> & N1 & D1 & S1 & S2 & N2 & D2 & S3 & L).
  assert (Ho : exists c o', o = String c o' /\ lower_char c = "o"%char).
  { destruct o as [|c o']; simpl in L; [discriminate|].
    inversion L. now exists c, o'. }
  destruct Ho as (c & o' & -> & Hc).
  unfold match_here.
  rewrite (span_app is_digit g1).
  2: exact D1.
  2:{ apply (head_not_app _ _ _ is_space space_not_digit S1). reflexivity. }
  destruct g1 as [|x1 g1]; [congruence|].
  rewrite (span_app is_space w1); [|exact S1|reflexivity]. cbn [snd].
  change ("/" ++ w2 ++ g2 ++ w3 ++ String c o' ++ rest)%string
    with (String "/" (w2 ++ g2 ++ w3 ++ String c o' ++ rest)).
  cbv beta iota.
  rewrite (span_app is_space w2).
  2: exact S2.
  2:{ destruct g2 as [|x2 g2]; [congruence|]. simpl in *.
      apply andb_true_iff in D2. apply digit_not_space, D2. }
  cbn [snd].
  rewrite (span_app is_digit g2).
  2: exact D2.
  2:{ apply (head_not_app _ _ _ is_space space_not_digit S3).
      simpl. now apply letter_o_not_digit. }
  destruct g2 as [|x2 g2]; [congruence|].
  rewrite (span_app is_space w3).
  2: exact S3.
  2:{ simpl. now apply letter_o_not_space. }
  cbn [snd].
  assert (P : prefix_ci "open" (String c o' ++ rest) = true).
  { apply prefix_ci_spec. exists (String c o'), rest. split; [reflexivity|exact L]. }
  rewrite P. reflexivity.
Qed.

Lemma match_here_iff (s g1 g2 : string) :
  match_here s = Some (g1, g2) <-> matches_here s g1 g2.
Proof. split; [apply match_here_sound | apply match_here_complete]. Qed.

(** ** [re_search] returns the leftmost match *)

Lemma re_search_unfold (s : string) :
  re_search s =
  match match_here s with
  | Some g => Some g
  | None => match s with
            | EmptyString => None
            | String _ s' => re_search s'
            end
  end.
Proof. destruct s; reflexivity. Qed.

Lemma re_search_leftmost (s : string) (g : string * string) :
  re_search s = Some g <->
  exists pre s',
    s = (pre ++ s')%string /\ match_here s' = Some g
    /\ forall p1 s1, s = (p1 ++ s1)%string ->
         (String.length p1 < String.length pre)%nat -> match_here s1 = None.
Proof.
  split.
  - induction s as [|c s IH]; simpl.
    + discriminate.
    + destruct (match_here (String c s)) eqn:E.
      * intros H; inversion H; subst. exists EmptyString, (String c s).
        repeat split; [exact E | simpl; intros; lia].
      * intros H. destruct (IH H) as (pre & s' & -> & M & Lm).
        exists (String c pre), s'. repeat split; [exact M|].
        intros p1 s1 E1 Hl. destruct p1 as [|x p1]; simpl in *.
        -- now subst s1.
        -- inversion E1 as [[Ex E2]]. apply (Lm p1 s1 E2). lia.
  - intros (pre & s' & -> & M & Lm). induction pre as [|c pre IH].
    + simpl. rewrite re_search_unfold, M. reflexivity.
    + assert (E : match_here (String c pre ++ s') = None).
      { apply (Lm EmptyString); [reflexivity | simpl; lia]. }
      rewrite re_search_unfold, E. simpl. apply IH. intros p1 s1 E1 Hl.
      apply (Lm (String c p1) s1); [simpl; now rewrite E1 | simpl; lia].
Qed.

(** A match anywhere makes the search succeed. *)
Lemma re_search_finds (pre s : string) (g : string * string) :
  match_here s = Some g -> exists g', re_search (pre ++ s) = Some g'.
Proof.
  intros M. induction pre as [|c pre IH].
  - exists g. simpl. rewrite re_search_unfold, M. reflexivity.
  - rewrite re_search_unfold. simpl.
    destruct (match_here (String c (pre ++ s))); [eauto | exact IH].
Qed.

Lemma re_search_none (s : string) :
  re_search s = None <->
  forall pre s' g1 g2, s = (pre ++ s')%string -> ~ matches_here s' g1 g2.
Proof.
  split.
  - intros N pre s' g1 g2 -> M. apply match_here_complete in M.
    destruct (re_search_finds pre s' _ M) as [g' E]. congruence.
  - intros H. destruct (re_search s) as [[g1 g2]|] eqn:E; [|reflexivity].
    apply re_search_leftmost in E. destruct E as (pre & s' & -> & M & _).
    apply match_here_sound in M. exfalso. exact (H _ _ _ _ eq_refl M).
Qed.

(** ** [contains] *)

Lemma prefix_app (a b : string) : prefix a (a ++ b) = true.
Proof.
  induction a as [|c a IH]; simpl; [now destruct b|].
  destruct (ascii_dec c c); [exact IH | congruence].
Qed.

Lemma prefix_split (a s : string) :
  prefix a s = true -> exists b, s = (a ++ b)%string.
Proof.
  revert s. induction a as [|c a IH]; intros s; simpl.
  - intros _. now exists s.
  - destruct s as [|x s]; simpl; [discriminate|].
    destruct (ascii_dec c x) as [->|]; [|discriminate].
    intros H. destruct (IH _ H) as [b ->]. now exists b.
Qed.

Lemma contains_unfold (needle hay : string) :
  contains needle hay =
  if prefix needle hay then true
  else match hay with
       | EmptyString => false
       | String _ hay' => contains needle hay'
       end.
Proof. destruct hay; reflexivity. Qed.

Lemma contains_spec (needle hay : string) :
  contains needle hay = true <->
  exists pre post, hay = (pre ++ needle ++ post)%string.
Proof.
  split.
  - induction hay as [|c hay IH]; rewrite contains_unfold;
      destruct (prefix needle _) eqn:P.
    + intros _. apply prefix_split in P. destruct P as [b ->].
      now exists EmptyString, b.
    + discriminate.
    + intros _. apply prefix_split in P. destruct P as [b P].
      exists EmptyString, b. exact P.
    + intros H. destruct (IH H) as (pre & post & ->).
      now exists (String c pre), post.
  - intros (pre & post & ->). induction pre as [|c pre IH];
      rewrite contains_unfold.
    + simpl. now rewrite prefix_app.
    + cbn [append]. rewrite IH.
      now destruct (prefix needle (String c (pre ++ needle ++ post))).
Qed.

(** A text that contains [(1/2 open)] has a match of the pattern. *)
Lemma half_open_matches (s : string) :
  contains "(1/2 open)" s = true -> exists g, re_search s = Some g.
Proof.
  intros H. apply contains_spec in H. destruct H as (pre & post & ->).
  change (pre ++ "(1/2 open)" ++ post)%string
    with (pre ++ String "(" ("1/2 open)" ++ post))%string.
  replace (pre ++ String "(" ("1/2 open)" ++ post))%string
    with ((pre ++ "(") ++ ("1/2 open)" ++ post))%string
    by (rewrite append_assoc; reflexivity).
  apply (re_search_finds _ _ ("1", "2")).
  apply match_here_complete.
  exists EmptyString, EmptyString, " ", "open", (")" ++ post)%string.
  repeat split; discriminate.
Qed.

End LabelFacts.

(* ------------------------------------------------------------------ *)
(** * Facts about [groupby] and [sort_values]                          *)
(* ------------------------------------------------------------------ *)

Module FrameFacts.
Import Frame.

(** ** The comparisons of the key columns are lawful *)

#[global] Instance CmpLaws_Z : CmpLaws Z.
Proof.
  split; unfold kcmp, Cmp_Z.
  - apply Z.compare_eq.
  - apply Z.compare_refl.
  - intros a b. apply Z.compare_antisym.
  - intros a b c. rewrite !Z.compare_lt_iff. lia.
Qed.

Lemma ascii_compare_refl (a : ascii) : Ascii.compare a a = Eq.
Proof. unfold Ascii.compare. apply N.compare_refl. Qed.

Lemma ascii_compare_trans (a b c : ascii) :
  Ascii.compare a b = Lt -> Ascii.compare b c = Lt -> Ascii.compare a c = Lt.
Proof. unfold Ascii.compare. rewrite !N.compare_lt_iff. lia. Qed.

Lemma string_compare_refl (a : string) : String.compare a a = Eq.
Proof.
  induction a as [|c a IH]; simpl; [reflexivity|].
  now rewrite ascii_compare_refl.
Qed.

Lemma string_compare_trans (a b c : string) :
  String.compare a b = Lt -> String.compare b c = Lt ->
  String.compare a c = Lt.
Proof.
  revert b c. induction a as [|x a IH]; intros [|y b] [|z c]; simpl;
    try discriminate; try reflexivity.
  destruct (Ascii.compare x y) eqn:Exy; try discriminate;
    destruct (Ascii.compare y z) eqn:Eyz; try discriminate; intros H1 H2.
  - apply Ascii.compare_eq_iff in Exy, Eyz. subst.
    rewrite ascii_compare_refl. eapply IH; eassumption.
  - apply Ascii.compare_eq_iff in Exy. subst. now rewrite Eyz.
  - apply Ascii.compare_eq_iff in Eyz. subst. now rewrite Exy.
  - now rewrite (ascii_compare_trans _ _ _ Exy Eyz).
Qed.

#[global] Instance CmpLaws_string : CmpLaws string.
Proof.
  split; unfold kcmp, Cmp_string.
  - apply String.compare_eq_iff.
  - apply string_compare_refl.
  - intros a b. apply String.compare_antisym.
  - apply string_compare_trans.
Qed.

#[global] Instance CmpLaws_pair {A B : Type} `{CmpLaws A} `{CmpLaws B} :
  CmpLaws (A * B).
Proof.
  split; unfold kcmp, Cmp_pair.
  - intros [a b] [a' b']; simpl.
    destruct (kcmp a a') eqn:E; try discriminate.
    intros E'. apply kcmp_eq in E, E'. now subst.
  - intros [a b]; simpl. now rewrite !kcmp_refl.
  - intros [a b] [a' b']; simpl. rewrite (kcmp_antisym a a').
    destruct (kcmp a a'); simpl; try reflexivity. apply kcmp_antisym.
  - intros [a b] [a' b'] [a'' b'']; simpl.
    destruct (kcmp a a') eqn:E1; try discriminate;
      destruct (kcmp a' a'') eqn:E2; try discriminate; intros Lt1 Lt2.
    + apply kcmp_eq in E1, E2. subst. rewrite kcmp_refl.
      eapply kcmp_trans; eassumption.
    + apply kcmp_eq in E1. subst. now rewrite E2.
    + apply kcmp_eq in E2. subst. now rewrite E1.
    + now rewrite (kcmp_trans _ _ _ E1 E2).
Qed.

(** ** Sums *)

Section Sums.
Context {A : Type}.

Lemma sumZ_from (f : A -> Z) (l : list A) (z : Z) :
  fold_left (fun acc r => acc + f r) l z = z + sumZ f l.
Proof.
  unfold sumZ. revert z. induction l as [|x l IH]; intros z; simpl; [lia|].
  rewrite (IH (z + f x)), (IH (f x)). lia.
Qed.

Lemma sumZ_cons (f : A -> Z) (x : A) (l : list A) :
  sumZ f (x :: l) = f x + sumZ f l.
Proof. unfold sumZ at 1. simpl. now rewrite sumZ_from. Qed.

Lemma sumZ_perm (f : A -> Z) (l l' : list A) :
  Permutation l l' -> sumZ f l = sumZ f l'.
Proof.
  induction 1; rewrite ?sumZ_cons; lia.
Qed.

Lemma sumZ_ext (f g : A -> Z) (l : list A) :
  (forall x, In x l -> f x = g x) -> sumZ f l = sumZ g l.
Proof.
  induction l as [|x l IH]; intros E; [reflexivity|].
  rewrite !sumZ_cons, (E x (or_introl eq_refl)), IH; [reflexivity|].
  intros y Hy. apply E. now right.
Qed.

Lemma filter_perm (p : A -> bool) (l l' : list A) :
  Permutation l l' -> Permutation (filter p l) (filter p l').
Proof.
  induction 1; simpl.
  - constructor.
  - destruct (p x); [now constructor | assumption].
  - destruct (p x), (p y); try reflexivity. constructor.
  - etransitivity; eassumption.
Qed.

End Sums.

Lemma sumZ_map {A B : Type} (h : B -> A) (f : A -> Z) (l : list B) :
  sumZ f (map h l) = sumZ (fun x => f (h x)) l.
Proof.
  induction l as [|x l IH]; [reflexivity|].
  cbn [map]. now rewrite !sumZ_cons, IH.
Qed.

(** ** Group keys *)

Section Keys.
Context {R K : Type} `{CmpLaws K}.
Variable key : R -> K.

Lemma klt_irrefl (a : K) : ~ klt a a.
Proof. unfold klt. rewrite kcmp_refl. discriminate. Qed.

Lemma kcmp_gt_lt (a b : K) : kcmp a b = Gt -> klt b a.
Proof. unfold klt. intros E. now rewrite kcmp_antisym, E. Qed.

Lemma keqb_eq (a b : K) : keqb a b = true <-> a = b.
Proof.
  unfold keqb. split.
  - destruct (kcmp a b) eqn:E; try discriminate. intros _. now apply kcmp_eq.
  - intros ->. now rewrite kcmp_refl.
Qed.

Lemma insert_key_In (k x : K) (ks : list K) :
  In x (insert_key k ks) <-> x = k \/ In x ks.
Proof.
  induction ks as [|k' ks IH]; simpl.
  - intuition.
  - destruct (kcmp k k') eqn:E; simpl.
    + apply kcmp_eq in E. subst. intuition.
    + intuition.
    + rewrite IH. intuition.
Qed.

Lemma insert_key_sorted (k : K) (ks : list K) :
  StronglySorted klt ks -> StronglySorted klt (insert_key k ks).
Proof.
  induction 1 as [|k' ks S IH F]; simpl.
  - repeat constructor.
  - destruct (kcmp k k') eqn:E.
    + now constructor.
    + constructor; [now constructor|]. constructor; [exact E|].
      eapply Forall_impl; [|exact F]. intros x Hx.
      eapply kcmp_trans; eassumption.
    + constructor; [exact IH|]. apply Forall_forall. intros x Hx.
      apply insert_key_In in Hx. destruct Hx as [->|Hx].
      * now apply kcmp_gt_lt.
      * rewrite Forall_forall in F. now apply F.
Qed.

Lemma group_keys_In (rows : list R) (k : K) :
  In k (group_keys key rows) <-> In k (map key rows).
Proof.
  induction rows as [|r rows IH]; simpl; [reflexivity|].
  rewrite insert_key_In, IH. intuition.
Qed.

Lemma group_keys_sorted (rows : list R) :
  StronglySorted klt (group_keys key rows).
Proof.
  induction rows as [|r rows IH]; simpl; [constructor|].
  now apply insert_key_sorted.
Qed.

(** Two increasing lists with the same elements are the same list. *)
Lemma sorted_ext (l1 l2 : list K) :
  StronglySorted klt l1 -> StronglySorted klt l2 ->
  (forall x, In x l1 <-> In x l2) -> l1 = l2.
Proof.
  intros S1. revert l2. induction S1 as [|a l1 S1 IH F1]; intros l2 S2 E.
  - destruct l2 as [|b l2]; [reflexivity|].
    exfalso. apply (proj2 (E b)). now left.
  - destruct S2 as [|b l2 S2 F2].
    + exfalso. apply (proj1 (E a)). now left.
    + rewrite Forall_forall in F1, F2.
      assert (a = b) as <-.
      { destruct (proj1 (E a) (or_introl eq_refl)) as [->|Ha]; [reflexivity|].
        destruct (proj2 (E b) (or_introl eq_refl)) as [->|Hb]; [reflexivity|].
        exfalso. apply (klt_irrefl a).
        eapply kcmp_trans; [apply F1, Hb | apply F2, Ha]. }
      f_equal. apply IH; [exact S2|]. intros x. split; intros Hx.
      * destruct (proj1 (E x) (or_intror Hx)) as [<-|Hx']; [|exact Hx'].
        exfalso. exact (klt_irrefl _ (F1 _ Hx)).
      * destruct (proj2 (E x) (or_intror Hx)) as [<-|Hx']; [|exact Hx'].
        exfalso. exact (klt_irrefl _ (F2 _ Hx)).
Qed.

Lemma sorted_NoDup (l : list K) : StronglySorted klt l -> NoDup l.
Proof.
  induction 1 as [|a l S IH F]; constructor; [|exact IH].
  intros Ha. rewrite Forall_forall in F. exact (klt_irrefl _ (F _ Ha)).
Qed.

Lemma group_keys_NoDup (rows : list R) : NoDup (group_keys key rows).
Proof. apply sorted_NoDup, group_keys_sorted. Qed.

Lemma group_keys_perm (rows rows' : list R) :
  Permutation rows rows' -> group_keys key rows = group_keys key rows'.
Proof.
  intros P. apply sorted_ext; try apply group_keys_sorted.
  intros x. rewrite !group_keys_In. split; apply Permutation_in.
  - now apply Permutation_map.
  - now apply Permutation_map, Permutation_sym.
Qed.

Lemma members_perm (k : K) (rows rows' : list R) :
  Permutation rows rows' ->
  Permutation (members key k rows) (members key k rows').
Proof. apply filter_perm. Qed.

(** [groupby] does not depend on the order of the rows when the
    aggregation of a group does not. *)
Lemma groupby_perm {Out : Type} (agg : K -> list R -> Out)
    (rows rows' : list R) :
  (forall k l l', Permutation l l' -> agg k l = agg k l') ->
  Permutation rows rows' ->
  groupby key agg rows = groupby key agg rows'.
Proof.
  intros Hagg P. unfold groupby. rewrite (group_keys_perm _ _ P).
  apply map_ext. intros k. apply Hagg. now apply members_perm.
Qed.

(** The keys of the output rows are the group keys, in increasing order. *)
Lemma groupby_keys {Out : Type} (agg : K -> list R -> Out)
    (okey : Out -> K) (rows : list R) :
  (forall k l, okey (agg k l) = k) ->
  map okey (groupby key agg rows) = group_keys key rows.
Proof.
  intros E. unfold groupby. rewrite map_map.
  rewrite (map_ext _ (fun k => k)); [apply map_id | intros k; apply E].
Qed.

(** Every output row is the aggregate of the rows that have its key, and
    every key of the frame has its output row. *)
Lemma groupby_rows {Out : Type} (agg : K -> list R -> Out)
    (rows : list R) (out : Out) :
  In out (groupby key agg rows) <->
  exists k, In k (map key rows) /\ out = agg k (members key k rows).
Proof.
  unfold groupby. rewrite in_map_iff. split.
  - intros (k & <- & Hk). exists k. split; [|reflexivity].
    now apply group_keys_In.
  - intros (k & Hk & ->). exists k. split; [reflexivity|].
    now apply group_keys_In.
Qed.

Lemma sumZ_zero {A : Type} (l : list A) : sumZ (fun _ => 0) l = 0.
Proof.
  induction l as [|x l IH]; [reflexivity | now rewrite sumZ_cons, IH].
Qed.

Lemma sumZ_members_cons (f : R -> Z) (r : R) (rows : list R) (l : list K) :
  sumZ (fun k => sumZ f (members key k (r :: rows))) l
  = sumZ (fun k => if keqb (key r) k then f r else 0) l
    + sumZ (fun k => sumZ f (members key k rows)) l.
Proof.
  induction l as [|x l IH]; [reflexivity|].
  rewrite !sumZ_cons, IH. unfold members at 1. cbn [filter].
  destruct (keqb (key r) x); [rewrite sumZ_cons|]; unfold members; lia.
Qed.

Lemma sumZ_one_key (f : R -> Z) (P : K -> bool) (r : R) (ks : list K) :
  NoDup ks -> In (key r) ks ->
  sumZ (fun k => if keqb (key r) k then f r else 0) (filter P ks)
  = if P (key r) then f r else 0.
Proof.
  induction 1 as [|k ks Nin ND IH]; intros Hin; [destruct Hin|].
  cbn [filter]. destruct (keqb (key r) k) eqn:E.
  - apply keqb_eq in E. subst k.
    assert (Z0 : sumZ (fun k => if keqb (key r) k then f r else 0)
                   (filter P ks) = 0).
    { rewrite (sumZ_ext _ (fun _ => 0)); [apply sumZ_zero|].
      intros x Hx. apply filter_In in Hx. destruct Hx as [Hx _].
      destruct (keqb (key r) x) eqn:Ex; [|reflexivity].
      apply keqb_eq in Ex. subst x. contradiction. }
    destruct (P (key r)).
    + rewrite sumZ_cons, Z0, (proj2 (keqb_eq _ _) eq_refl). lia.
    + exact Z0.
  - assert (Hin' : In (key r) ks).
    { destruct Hin as [->|Hin]; [|exact Hin].
      rewrite (proj2 (keqb_eq _ _) eq_refl) in E. discriminate. }
    destruct (P k); [rewrite sumZ_cons, E|]; rewrite (IH Hin'); lia.
Qed.

(** Summing, over the groups selected by [P], the sums of the groups,
    is summing over the rows whose key [P] selects. *)
Lemma sumZ_groups (f : R -> Z) (P : K -> bool) (rows : list R)
    (ks : list K) :
  NoDup ks -> (forall r, In r rows -> In (key r) ks) ->
  sumZ (fun k => sumZ f (members key k rows)) (filter P ks)
  = sumZ f (filter (fun r => P (key r)) rows).
Proof.
  intros ND. induction rows as [|r rows IH]; intros Hin.
  - cbn [filter members]. apply sumZ_zero.
  - rewrite sumZ_members_cons, IH, (sumZ_one_key f P r ks ND).
    + cbn [filter]. destruct (P (key r)); [rewrite sumZ_cons|]; lia.
    + apply Hin. now left.
    + intros x Hx. apply Hin. now right.
Qed.

End Keys.

(** ** [sort_values] *)

Section Sort.
Context {R K : Type} `{CmpLaws K}.
Variable key : R -> K.

Lemma insert_row_perm (r : R) (rows : list R) :
  Permutation (insert_row key r rows) (r :: rows).
Proof.
  induction rows as [|r' rows IH]; simpl; [reflexivity|].
  destruct (kleb (key r) (key r')); [reflexivity|].
  etransitivity; [apply perm_skip, IH | apply perm_swap].
Qed.

Lemma sort_values_perm (rows : list R) :
  Permutation (sort_values key rows) rows.
Proof.
  induction rows as [|r rows IH]; simpl; [constructor|].
  etransitivity; [apply insert_row_perm | now constructor].
Qed.

Lemma sort_values_In (rows : list R) (r : R) :
  In r (sort_values key rows) <-> In r rows.
Proof.
  split; apply Permutation_in;
    [apply sort_values_perm | apply Permutation_sym, sort_values_perm].
Qed.

(** With pairwise distinct keys the sorted rows are strictly increasing. *)
Lemma insert_row_sorted (r : R) (rows : list R) :
  ~ In (key r) (map key rows) ->
  StronglySorted (fun a b => klt (key a) (key b)) rows ->
  StronglySorted (fun a b => klt (key a) (key b)) (insert_row key r rows).
Proof.
  intros Nin S. induction S as [|r' rows S IH F]; simpl.
  - repeat constructor.
  - assert (Ne : kcmp (key r) (key r') <> Eq).
    { intros E. apply kcmp_eq in E. apply Nin. left. now symmetry. }
    unfold kleb. destruct (kcmp (key r) (key r')) eqn:E; [congruence| |].
    + constructor; [now constructor|]. constructor; [exact E|].
      eapply Forall_impl; [|exact F]. intros x Hx.
      eapply kcmp_trans; eassumption.
    + constructor.
      * apply IH. intros Hin. apply Nin. now right.
      * apply Forall_forall. intros x Hx.
        apply (Permutation_in _ (insert_row_perm r rows)) in Hx.
        destruct Hx as [<-|Hx]; [now apply kcmp_gt_lt|].
        rewrite Forall_forall in F. now apply F.
Qed.

Lemma sort_values_sorted (rows : list R) :
  NoDup (map key rows) ->
  StronglySorted (fun a b => klt (key a) (key b)) (sort_values key rows).
Proof.
  induction rows as [|r rows IH]; simpl; intros ND; [constructor|].
  inversion ND as [|? ? Nin ND']; subst.
  apply insert_row_sorted; [|now apply IH].
  intros Hin. apply Nin.
  eapply Permutation_in; [|exact Hin].
  apply Permutation_map, sort_values_perm.
Qed.

(** A strictly increasing arrangement of rows is unique: the outcome of
    [sort_values] on distinct keys does not depend on the sorting
    algorithm, stable or not. *)
Lemma sorted_rows_unique (l1 l2 : list R) :
  StronglySorted (fun a b => klt (key a) (key b)) l1 ->
  StronglySorted (fun a b => klt (key a) (key b)) l2 ->
  Permutation l1 l2 -> l1 = l2.
Proof.
  intros S1. revert l2. induction S1 as [|a l1 S1 IH F1]; intros l2 S2 P.
  - apply Permutation_nil in P. now subst.
  - destruct S2 as [|b l2 S2 F2].
    + apply Permutation_sym, Permutation_nil in P. discriminate.
    + rewrite Forall_forall in F1, F2.
      assert (a = b) as <-.
      { destruct (Permutation_in a P (or_introl eq_refl)) as [->|Ha];
          [reflexivity|].
        destruct (Permutation_in b (Permutation_sym P) (or_introl eq_refl))
          as [->|Hb]; [reflexivity|].
        exfalso. apply (klt_irrefl (key a)).
        eapply kcmp_trans; [apply F1, Hb | apply F2, Ha]. }
      f_equal. apply IH; [exact S2|]. eapply Permutation_cons_inv, P.
Qed.

End Sort.

End FrameFacts.

(* ------------------------------------------------------------------ *)
(** * Properties of the label interpreter                              *)
(* ------------------------------------------------------------------ *)

Module LabelProperties.
Import Label LabelFacts Scraper.

(** C3. With the capacity 4 the function has built in, the interpreter
    returns 1 for "3/4 Open", 4 for "0/4 Open", 4 for "Waitlist", 2 for
    "(1/2 Open)" and 0 for "garbage". *)
Theorem bookings_from_label_examples :
  bookings_from_label "3/4 Open" = 1
  /\ bookings_from_label "0/4 Open" = 4
  /\ bookings_from_label "Waitlist" = 4
  /\ bookings_from_label "(1/2 Open)" = 2
  /\ bookings_from_label "garbage" = 0.
Proof. repeat split; reflexivity. Qed.

(** C4, as stated, fails: "1/2 open" has a match with total 2 and does
    not contain "(1/2 open)"; the code returns 2, where the rules as
    worded give 0 when only 4 is a known capacity and 2 - 1 = 1 when 2
    is one as well. *)
Lemma fraction_of_two_counterexample :
  contains "waitlist" (lower "1/2 open") = false
  /\ re_search (lower "1/2 open") = Some ("1", "2")
  /\ contains "(1/2 open)" (lower "1/2 open") = false
  /\ bookings_from_label "1/2 open" = 2
  /\ interpret_spec (fun t => t =? 4) "1/2 open" 4 = 0
  /\ interpret_spec (fun t => (t =? 4) || (t =? 2)) "1/2 open" 4 = 1
  /\ forall known : Z -> bool,
      interpret_spec known "1/2 open" 4 <> bookings_from_label "1/2 open".
Proof.
  repeat split; try reflexivity.
  intros known. unfold interpret_spec. cbv zeta.
  change (lower "1/2 open") with "1/2 open".
  change (contains "waitlist" "1/2 open") with false.
  change (re_search "1/2 open") with (Some ("1", "2")).
  cbv iota beta.
  destruct (known (int_of_digits "2")); vm_compute; discriminate.
Qed.

(** C4, amended. For a label whose lower-case form does not contain
    "waitlist" and whose leftmost match of the pattern has the groups
    [g1] (open count) and [g2] (total): the result is [4 - open] when the
    total is 4, it is 2 when the total is 2, whatever the open count and
    the rest of the label, and it is 0 for every other total. *)
Theorem bookings_from_label_fraction (text pre s g1 g2 : string) :
  contains "waitlist" (lower text) = false ->
  lower text = (pre ++ s)%string ->
  matches_here s g1 g2 ->
  (forall p1 s1 h1 h2,
      lower text = (p1 ++ s1)%string ->
      (String.length p1 < String.length pre)%nat ->
      ~ matches_here s1 h1 h2) ->
  (int_of_digits g2 = 4 ->
   bookings_from_label text = 4 - int_of_digits g1)
  /\ (int_of_digits g2 = 2 -> bookings_from_label text = 2)
  /\ (int_of_digits g2 <> 4 -> int_of_digits g2 <> 2 ->
      bookings_from_label text = 0).
Proof.
  intros W E M Lm.
  assert (R : re_search (lower text) = Some (g1, g2)).
  { apply re_search_leftmost. exists pre, s. repeat split.
    - exact E.
    - now apply match_here_complete.
    - intros p1 s1 E1 Hl. destruct (match_here s1) as [[h1 h2]|] eqn:M1;
        [|reflexivity].
      exfalso. apply (Lm p1 s1 h1 h2 E1 Hl). now apply match_here_sound. }
  unfold bookings_from_label. cbv zeta. rewrite W, R.
  repeat split.
  - intros ->. reflexivity.
  - intros ->. reflexivity.
  - intros N4 N2. apply Z.eqb_neq in N4, N2. now rewrite N4, N2.
Qed.

(** The label "(1/2 Open)": its only match starts after the bracket and
    has total 2. *)
Lemma bookings_from_label_fraction_witness :
  bookings_from_label "(1/2 Open)" = 2.
Proof.
  refine (proj1 (proj2
    (bookings_from_label_fraction "(1/2 Open)" "(" "1/2 open)" "1" "2"
       eq_refl eq_refl _ _)) eq_refl).
  - exists EmptyString, EmptyString, " ", "open", ")".
    repeat split; discriminate.
  - intros p1 s1 h1 h2 E Hl M.
    destruct p1 as [|c p1]; [|simpl in Hl; lia].
    simpl in E. subst s1. apply match_here_complete in M. discriminate M.
Defined.

(** C5, as stated, fails: "garbage" matches no rule, and its slot is
    appended with 0 booked bays, exactly as the slot of the recognised
    label "4/4 Open" is, and nothing is printed or counted for it. *)
Lemma unrecognized_label_counterexample :
  contains "waitlist" (lower "garbage") = false
  /\ re_search (lower "garbage") = None
  /\ bookings_from_label "garbage" = 0
  /\ bookings_from_label "4/4 Open" = 0
  /\ (forall (Time : Type) (strptime : string -> option Time) t,
         strptime "10:00 AM" = Some t ->
         scrape_day_rows strptime "2025-05-01"
           [ {| time_elem := Some "10:00 AM"; status_elem := Some "garbage" |} ]
         = ([ {| date := "2025-05-01"; time := t; status := "garbage";
                 booked_bays := 0 |} ], [])).
Proof.
  repeat split; try reflexivity.
  intros Time strptime t H. cbv [scrape_day_rows fold_left scrape_slot
    time_elem status_elem fst snd app].
  change (strip "10:00 AM") with "10:00 AM". rewrite H. reflexivity.
Qed.

(** C5, amended. For a label that matches no rule (its lower-case form
    neither contains "waitlist" nor has a match of the pattern anywhere)
    the interpreter returns 0 and the pipeline goes on: a slot with this
    label whose time parses is appended with 0 booked bays, and what has
    been printed is left as it was. *)
Theorem unrecognized_label_zero (text : string) :
  contains "waitlist" (lower text) = false ->
  (forall pre s g1 g2,
      lower text = (pre ++ s)%string -> ~ matches_here s g1 g2) ->
  bookings_from_label text = 0
  /\ forall (Time : Type) (strptime : string -> option Time)
            date_str acc time_text t,
       strptime (strip time_text) = Some t ->
       scrape_slot strptime date_str acc
         {| time_elem := Some time_text; status_elem := Some text |}
       = (fst acc ++ [ {| date := date_str; time := t;
                          status := strip text; booked_bays := 0 |} ],
          snd acc).
Proof.
  intros W N. apply re_search_none in N.
  assert (B : bookings_from_label text = 0).
  { unfold bookings_from_label. cbv zeta. rewrite W, N, lower_idem.
    destruct (contains "(1/2 open)" (lower text)) eqn:C; [|reflexivity].
    apply half_open_matches in C. destruct C as [g C]. congruence. }
  split; [exact B|].
  intros Time strptime date_str acc time_text t H.
  unfold scrape_slot. cbn [time_elem status_elem]. now rewrite H, B.
Qed.

(** The label "garbage" matches no rule. *)
Lemma unrecognized_label_zero_witness :
  bookings_from_label "garbage" = 0.
Proof.
  refine (proj1 (unrecognized_label_zero "garbage" eq_refl _)).
  apply re_search_none. reflexivity.
Defined.

(** C9. A label that contains "waitlist" in any letter case is fully
    booked: the interpreter returns the capacity 4, whatever precedes
    and follows the word. *)
Theorem waitlist_priority (pre w post : string) :
  lower w = "waitlist" ->
  bookings_from_label (pre ++ w ++ post) = 4.
Proof.
  intros L. unfold bookings_from_label. cbv zeta.
  assert (C : contains "waitlist" (lower (pre ++ w ++ post)) = true).
  { apply contains_spec. exists (lower pre), (lower post).
    now rewrite !lower_app, L. }
  now rewrite C.
Qed.

(** "WaitList" between two fractions. *)
Lemma waitlist_priority_witness :
  bookings_from_label "3/4 Open WaitList (1/2 open)" = 4.
Proof.
  exact (waitlist_priority "3/4 Open " "WaitList" " (1/2 open)" eq_refl).
Defined.

(** C10. On every input [bookings_from_label] agrees with its variant
    without the "(1/2 open)" test under [if not m]. That test is never
    reached with a true outcome: a text that contains "(1/2 open)" has a
    match of the pattern, so [m] is not [None]; and the text "(1/2 open)"
    itself, in any letter case, is answered by the branch for total 2,
    with the value 2. *)
Theorem fallback_branch_unreachable :
  (forall text : string,
      bookings_from_label text = bookings_from_label_no_fallback text)
  /\ (forall text : string,
         contains "(1/2 open)" (lower text) = true ->
         exists g, re_search (lower text) = Some g)
  /\ (forall text : string,
         lower text = "(1/2 open)" ->
         re_search (lower text) = Some ("1", "2")
         /\ bookings_from_label text = 2).
Proof.
  split; [|split].
  - intros text.
    unfold bookings_from_label, bookings_from_label_no_fallback. cbv zeta.
    destruct (contains "waitlist" (lower text)); [reflexivity|].
    destruct (re_search (lower text)) as [[g1 g2]|] eqn:R; [reflexivity|].
    rewrite lower_idem.
    destruct (contains "(1/2 open)" (lower text)) eqn:C; [|reflexivity].
    apply half_open_matches in C. destruct C as [g C]. congruence.
  - intros text. apply half_open_matches.
  - intros text L. unfold bookings_from_label. cbv zeta. rewrite L.
    split; reflexivity.
Qed.

End LabelProperties.

(* ------------------------------------------------------------------ *)
(** * Facts about the rollup tables                                    *)
(* ------------------------------------------------------------------ *)

Module ApiFacts.
Import Frame FrameFacts Api.

Lemma sorted_map {A B : Type} (f : A -> B) (lt : B -> B -> Prop)
    (l : list A) :
  StronglySorted lt (map f l) ->
  StronglySorted (fun a b => lt (f a) (f b)) l.
Proof.
  induction l as [|x l IH]; simpl; intros S; [constructor|].
  apply StronglySorted_inv in S. destruct S as [S F].
  constructor; [now apply IH|]. now rewrite Forall_map in F.
Qed.

Lemma sorted_impl {A : Type} (lt lt' : A -> A -> Prop) (l : list A) :
  (forall a b, lt a b -> lt' a b) ->
  StronglySorted lt l -> StronglySorted lt' l.
Proof.
  intros I. induction 1 as [|x l S IH F]; constructor; [exact IH|].
  eapply Forall_impl; [|exact F]. intros y. apply I.
Qed.

(** ** Table 1 *)

Lemma df_hour_rows (df : list Row) (h : HourRow) :
  In h (df_hour df) ->
  In (hour_row_key h) (map hour_key df)
  /\ bay_hours_offered h
     = sumZ capacity (members hour_key (hour_row_key h) df)
  /\ bay_hours_sold h
     = sumZ bays_booked (members hour_key (hour_row_key h) df)
  /\ hour_utilisation h
     = truediv (bay_hours_sold h) (bay_hours_offered h).
Proof.
  unfold df_hour. intros Hin. apply groupby_rows in Hin.
  destruct Hin as ([loc t] & Hk & ->). unfold hour_row_key. simpl.
  repeat split. exact Hk.
Qed.

Lemma df_hour_keys (df : list Row) :
  map hour_row_key (df_hour df) = group_keys hour_key df.
Proof.
  unfold df_hour. apply groupby_keys. now intros [loc t] l.
Qed.

Lemma df_hour_perm (df df' : list Row) :
  Permutation df df' -> df_hour df = df_hour df'.
Proof.
  intros P. unfold df_hour. apply groupby_perm; [|exact P].
  intros k l l' Pl.
  now rewrite (sumZ_perm capacity _ _ Pl), (sumZ_perm bays_booked _ _ Pl).
Qed.

(** ** Table 2 *)

Section Zone.
Variable utcoffset : Z -> Z.

Lemma df_day_rows (hours : list HourRow) (d : DayRow) :
  In d (df_day utcoffset hours) ->
  In (day_row_key d) (map (day_key utcoffset) hours)
  /\ hours_offered d
     = sumZ bay_hours_offered
         (members (day_key utcoffset) (day_row_key d) hours)
  /\ hours_sold d
     = sumZ bay_hours_sold
         (members (day_key utcoffset) (day_row_key d) hours)
  /\ utilisation d = truediv (hours_sold d) (hours_offered d).
Proof.
  unfold df_day. intros Hin. apply groupby_rows in Hin.
  destruct Hin as ([[loc day] name] & Hk & ->). unfold day_row_key. simpl.
  repeat split. exact Hk.
Qed.

Lemma df_day_keys (hours : list HourRow) :
  map day_row_key (df_day utcoffset hours)
  = group_keys (day_key utcoffset) hours.
Proof.
  unfold df_day. apply groupby_keys. now intros [[loc day] name] l.
Qed.

(** The hour rows of a day group, summed, are the records of the day
    group, summed. *)
Lemma day_members_sum (f : Row -> Z) (g : HourRow -> Z) (df : list Row)
    (k : string * Z * string) :
  (forall h, In h (df_hour df) ->
             g h = sumZ f (members hour_key (hour_row_key h) df)) ->
  sumZ g (members (day_key utcoffset) k (df_hour df))
  = sumZ f (members (row_day_key utcoffset) k df).
Proof.
  intros Hg.
  set (P := fun kh : string * Z =>
              keqb (fst kh, local_date utcoffset (snd kh),
                    day_name (local_date utcoffset (snd kh))) k).
  assert (E : sumZ g (members (day_key utcoffset) k (df_hour df))
              = sumZ (fun kh => sumZ f (members hour_key kh df))
                  (filter P (group_keys hour_key df))).
  { rewrite <- (df_hour_keys df).
    assert (G : forall l : list HourRow,
               (forall h, In h l -> In h (df_hour df)) ->
               sumZ g (members (day_key utcoffset) k l)
               = sumZ (fun kh => sumZ f (members hour_key kh df))
                   (filter P (map hour_row_key l))).
    { induction l as [|h l IH]; intros Hl; [reflexivity|].
      change (members (day_key utcoffset) k (h :: l))
        with (if P (hour_row_key h)
              then h :: members (day_key utcoffset) k l
              else members (day_key utcoffset) k l).
      cbn [filter map].
      destruct (P (hour_row_key h)).
      - rewrite !sumZ_cons. cbv beta.
        rewrite <- (Hg h (Hl h (or_introl eq_refl))).
        f_equal. apply IH. intros x Hx. apply Hl. now right.
      - apply IH. intros x Hx. apply Hl. now right. }
    apply G. auto. }
  rewrite E, (sumZ_groups hour_key f P df).
  - reflexivity.
  - apply group_keys_NoDup.
  - intros r Hr. apply group_keys_In. now apply in_map.
Qed.

Lemma df_day_of_records (df : list Row) (d : DayRow) :
  In d (df_day utcoffset (df_hour df)) ->
  hours_offered d
  = sumZ capacity (members (row_day_key utcoffset) (day_row_key d) df)
  /\ hours_sold d
     = sumZ bays_booked (members (row_day_key utcoffset) (day_row_key d) df).
Proof.
  intros Hin. destruct (df_day_rows _ _ Hin) as (_ & -> & -> & _). split.
  - apply day_members_sum. intros h Hh. now apply df_hour_rows.
  - apply day_members_sum. intros h Hh. now apply df_hour_rows.
Qed.

(** ** Table 3 *)

Lemma day_name_in_order (days : Z) : In (day_name days) dow_order.
Proof.
  unfold day_name. pose proof (Z.mod_pos_bound (days + 3) 7 eq_refl) as B.
  assert (C : (days + 3) mod 7 = 0 \/ (days + 3) mod 7 = 1
              \/ (days + 3) mod 7 = 2 \/ (days + 3) mod 7 = 3
              \/ (days + 3) mod 7 = 4 \/ (days + 3) mod 7 = 5
              \/ (days + 3) mod 7 = 6) by lia.
  destruct C as [E|[E|[E|[E|[E|[E|E]]]]]]; rewrite E; simpl; tauto.
Qed.

Lemma df_day_dow (hours : list HourRow) (d : DayRow) :
  In d (df_day utcoffset hours) -> In (dow d) dow_order.
Proof.
  intros Hin. destruct (df_day_rows _ _ Hin) as (Hk & _).
  apply in_map_iff in Hk. destruct Hk as (h & E & _).
  unfold day_key, day_row_key in E. inversion E. apply day_name_in_order.
Qed.

End Zone.

Lemma category_code_inj (a b : string) :
  In a dow_order -> In b dow_order ->
  category_code dow_order a = category_code dow_order b -> a = b.
Proof.
  unfold dow_order. simpl In. intros Ha Hb.
  repeat (destruct Ha as [<-|Ha]; [|]);
    try contradiction;
    repeat (destruct Hb as [<-|Hb]; [|]);
    try contradiction; vm_compute; congruence.
Qed.

Lemma dow_avg_unfold (days : list DayRow) :
  dow_avg days = sort_values dow_sort_key (groupby dow_key dow_agg days).
Proof. reflexivity. Qed.

Lemma dow_avg_rows (days : list DayRow) (w : DowRow) :
  In w (dow_avg days) <->
  In (dow_location w, dow_name w) (map dow_key days)
  /\ avg_utilisation w
     = mean (map utilisation
               (members dow_key (dow_location w, dow_name w) days)).
Proof.
  rewrite dow_avg_unfold, sort_values_In, groupby_rows. split.
  - intros ([loc name] & Hk & ->). simpl. split; [exact Hk | reflexivity].
  - intros [Hk Hm]. exists (dow_location w, dow_name w).
    split; [exact Hk|]. destruct w. simpl in *. now rewrite Hm.
Qed.

Lemma dow_avg_keys_NoDup (days : list DayRow) :
  (forall d, In d days -> In (dow d) dow_order) ->
  NoDup (map dow_sort_key (groupby dow_key dow_agg days)).
Proof.
  intros Hd. unfold groupby. rewrite map_map.
  apply NoDup_map_NoDup_ForallPairs; [|apply group_keys_NoDup].
  intros [l1 n1] [l2 n2] H1 H2. unfold dow_sort_key, dow_agg. simpl.
  apply group_keys_In, in_map_iff in H1, H2.
  destruct H1 as (d1 & E1 & D1), H2 as (d2 & E2 & D2).
  inversion E1; inversion E2; subst.
  intros E. inversion E as [[El Ec]]. rewrite El. f_equal.
  apply category_code_inj; auto.
Qed.

Lemma dow_avg_sorted (days : list DayRow) :
  (forall d, In d days -> In (dow d) dow_order) ->
  StronglySorted dow_before (dow_avg days).
Proof.
  intros Hd. rewrite dow_avg_unfold.
  pose proof (sort_values_sorted dow_sort_key _ (dow_avg_keys_NoDup _ Hd))
    as S.
  eapply sorted_impl; [|exact S]. clear.
  intros a b. unfold klt, dow_before, dow_sort_key, kcmp, Cmp_pair. simpl.
  unfold kcmp at 1, Cmp_string.
  destruct (String.compare (dow_location a) (dow_location b)) eqn:E;
    try discriminate.
  - intros L. right. split; [now apply String.compare_eq_iff|].
    now apply Z.compare_lt_iff.
  - now left.
Qed.

(** ** Table 4 *)

Lemma season_avgs_rows (days : list DayRow) (loc : string) (table : list (string * float64)) :
  In (loc, table) (season_avgs days) ->
  In loc (map day_location days)
  /\ table
     = map (fun s =>
              (s, mean (map utilisation
                          (filter (fun d => String.eqb (season d) s)
                                  (members day_location loc days)))))
           season_order.
Proof.
  unfold season_avgs. intros Hin. apply groupby_rows in Hin.
  destruct Hin as (k & Hk & E). inversion E; subst. now split.
Qed.

End ApiFacts.

(* ------------------------------------------------------------------ *)
(** * Properties of the normaliser and of the rollup tables            *)
(* ------------------------------------------------------------------ *)

Module ApiProperties.
Import Label Scraper Frame FrameFacts Api ApiFacts.

(** C7. Table 1 has one row for each (location, timestamp) of the frame,
    and the row carries the sum of the capacities and the sum of the
    booked counts of all the records with that key.  Two records of one
    location and hour with capacities 4 and 4 and booked counts 1 and 3
    give the single row capacity 8, booked 4, utilisation 1/2. *)
Theorem hour_rollup_sums :
  (forall df : list Row,
      Forall (fun h =>
                bay_hours_offered h
                = sumZ capacity (members hour_key (hour_row_key h) df)
                /\ bay_hours_sold h
                   = sumZ bays_booked (members hour_key (hour_row_key h) df)
                /\ hour_utilisation h
                   = truediv (bay_hours_sold h) (bay_hours_offered h))
             (df_hour df)
      /\ NoDup (map hour_row_key (df_hour df))
      /\ forall k, In k (map hour_row_key (df_hour df))
                   <-> In k (map hour_key df))
  /\ forall (loc : string) (t id1 id2 : Z) (u1 u2 : float64),
      df_hour
        [ {| id := id1; location := loc; capacity := 4; bays_booked := 1;
             util := u1; start_dt := t |};
          {| id := id2; location := loc; capacity := 4; bays_booked := 3;
             util := u2; start_dt := t |} ]
      = [ {| hour_location := loc; hour_start_dt := t;
             bay_hours_offered := 8; bay_hours_sold := 4;
             hour_utilisation := Fin (1 # 2) |} ].
Proof.
  split.
  - intros df. repeat split.
    + apply Forall_forall. intros h Hin.
      destruct (df_hour_rows df h Hin) as (_ & Ho & Hs & Hu). auto.
    + rewrite df_hour_keys. apply group_keys_NoDup.
    + rewrite df_hour_keys. apply group_keys_In.
    + rewrite df_hour_keys. apply group_keys_In.
  - intros loc t id1 id2 u1 u2.
    unfold df_hour, groupby, group_keys, members, hour_key, keqb.
    cbn [fold_right insert_key location start_dt].
    rewrite (kcmp_refl (loc, t)).
    cbn [map filter location start_dt].
    rewrite (kcmp_refl (loc, t)). reflexivity.
Qed.

(** C1, as stated, fails at the day-of-week level. For [two_mondays]
    the group (Tribeca, Monday) has the per-day utilisations 4/4 and
    0/12; table 3 reports their mean 1/2, where the booked counts summed
    over the sum of the capacities is 4/16 = 1/4. *)
Lemma dow_average_counterexample :
  df_day (fixed_offset (-5)) (df_hour two_mondays)
  = [ {| day_location := "Tribeca"; date_local := 19723; dow := "Monday";
         hours_offered := 4; hours_sold := 4; utilisation := Fin 1 |};
      {| day_location := "Tribeca"; date_local := 19730; dow := "Monday";
         hours_offered := 12; hours_sold := 0; utilisation := Fin 0 |} ]
  /\ dow_avg (df_day (fixed_offset (-5)) (df_hour two_mondays))
     = [ {| dow_location := "Tribeca"; dow_name := "Monday";
            avg_utilisation := Fin (1 # 2) |} ]
  /\ truediv (sumZ bays_booked two_mondays) (sumZ capacity two_mondays)
     = Fin (1 # 4)
  /\ Fin (1 # 2) <> Fin (1 # 4).
Proof. repeat split; try reflexivity. discriminate. Qed.

(** C1, amended. In table 1 and in table 2 the utilisation of a group is
    the sum of the booked counts over the sum of the capacities of the
    records of the frame that belong to the group. In table 3 and in
    the per-season averages the value of a group is the mean of the
    utilisations of the rows of table 2 that belong to it. *)
Theorem rollup_utilisation (utcoffset : Z -> Z) (df : list Row) :
  Forall (fun h =>
            hour_utilisation h
            = truediv
                (sumZ bays_booked (members hour_key (hour_row_key h) df))
                (sumZ capacity (members hour_key (hour_row_key h) df)))
         (df_hour df)
  /\ Forall (fun d =>
               utilisation d
               = truediv
                   (sumZ bays_booked
                      (members (row_day_key utcoffset) (day_row_key d) df))
                   (sumZ capacity
                      (members (row_day_key utcoffset) (day_row_key d) df)))
            (df_day utcoffset (df_hour df))
  /\ Forall (fun w =>
               avg_utilisation w
               = mean (map utilisation
                         (members dow_key (dow_location w, dow_name w)
                            (df_day utcoffset (df_hour df)))))
            (dow_avg (df_day utcoffset (df_hour df)))
  /\ Forall (fun lt =>
               snd lt
               = map (fun s =>
                        (s, mean (map utilisation
                                    (filter
                                       (fun d => String.eqb (season d) s)
                                       (members day_location (fst lt)
                                          (df_day utcoffset (df_hour df)))))))
                     season_order)
            (season_avgs (df_day utcoffset (df_hour df))).
Proof.
  repeat split; apply Forall_forall.
  - intros h Hin. destruct (df_hour_rows df h Hin) as (_ & Ho & Hs & Hu).
    now rewrite Hu, Ho, Hs.
  - intros d Hin. destruct (df_day_rows _ _ _ Hin) as (_ & _ & _ & Hu).
    destruct (df_day_of_records _ _ _ Hin) as [Ho Hs].
    now rewrite Hu, Ho, Hs.
  - intros w Hin. now apply dow_avg_rows in Hin.
  - intros [loc table] Hin. now apply season_avgs_rows in Hin.
Qed.

(** C2, as stated, fails: a record with capacity 4 and 5 available
    spots is kept in the frame with -1 booked bay, outside [0, 4], and
    the label "5/4 Open" gives -1 booked bay as well. *)
Lemma overbooked_record_counterexample :
  bookings_from_label "5/4 Open" = -1
  /\ forall (to_datetime_utc : string -> option Z) (t : Z),
      to_datetime_utc "2024-01-01T15:00:00Z" = Some t ->
      fetch_range_frame to_datetime_utc
        [ {| api_id := 7; location_name := "Tribeca"; api_capacity := 4;
             available_spot_count := 5;
             start_datetime := "2024-01-01T15:00:00Z" |} ]
      = Some [ {| id := 7; location := "Tribeca"; capacity := 4;
                  bays_booked := -1; util := Fin (-1 # 4);
                  start_dt := t |} ].
Proof.
  split; [reflexivity|]. intros f t H.
  unfold fetch_range_frame, normalize_records, normalize_record.
  cbn [start_datetime]. now rewrite H.
Qed.

(** C2, amended. Normalisation checks no range. [fetch_range] raises
    when there is no record or when the time of a record does not
    parse; otherwise it keeps every record, in order, with
    [bays_booked = capacity - available_spot_count], so a row satisfies
    [0 <= bays_booked <= capacity] exactly when its record has
    [0 <= available_spot_count <= capacity]. In the scraper a slot
    whose time does not parse is left out and the error is printed, and
    every other slot with both texts is kept with the booked count the
    label interpreter returns. *)
Theorem normalization_keeps_every_record :
  (forall (to_datetime_utc : string -> option Z) (recs : list ApiRecord),
      match fetch_range_frame to_datetime_utc recs with
      | Some rows =>
          recs <> []
          /\ Forall2
               (fun r x =>
                  to_datetime_utc (start_datetime r) = Some (start_dt x)
                  /\ id x = api_id r
                  /\ location x = location_name r
                  /\ capacity x = api_capacity r
                  /\ bays_booked x = api_capacity r - available_spot_count r
                  /\ (0 <= bays_booked x <= capacity x
                      <-> 0 <= available_spot_count r <= api_capacity r))
               recs rows
      | None =>
          recs = []
          \/ Exists (fun r => to_datetime_utc (start_datetime r) = None) recs
      end)
  /\ forall (Time : Type) (strptime : string -> option Time)
            (date_str : string) (acc : list (Booking Time) * list Printed)
            (time_text status_text : string),
      let slot := {| time_elem := Some time_text;
                     status_elem := Some status_text |} in
      match strptime (strip time_text) with
      | Some t =>
          scrape_slot strptime date_str acc slot
          = (fst acc ++ [ {| date := date_str; time := t;
                             status := strip status_text;
                             booked_bays := bookings_from_label status_text |} ],
             snd acc)
      | None =>
          scrape_slot strptime date_str acc slot
          = (fst acc, snd acc ++ [ErrorParsingSlot slot])
      end.
Proof.
  split.
  - intros f recs.
    assert (G : match normalize_records f recs with
                | Some rows =>
                    Forall2
                      (fun r x =>
                         f (start_datetime r) = Some (start_dt x)
                         /\ id x = api_id r
                         /\ location x = location_name r
                         /\ capacity x = api_capacity r
                         /\ bays_booked x
                            = api_capacity r - available_spot_count r
                         /\ (0 <= bays_booked x <= capacity x
                             <-> 0 <= available_spot_count r
                                 <= api_capacity r))
                      recs rows
                | None =>
                    Exists (fun r => f (start_datetime r) = None) recs
                end).
    { induction recs as [|r recs IH]; cbn [normalize_records];
        [constructor|].
      unfold normalize_record.
      destruct (f (start_datetime r)) as [t|] eqn:Et.
      - destruct (normalize_records f recs) as [rows|].
        + constructor; [|exact IH]. cbn. repeat split; try lia. exact Et.
        + now apply Exists_cons_tl.
      - now apply Exists_cons_hd. }
    unfold fetch_range_frame. destruct recs as [|r recs]; [now left|].
    destruct (normalize_records f (r :: recs)) as [rows|].
    + split; [discriminate | exact G].
    + now right.
  - intros Time strptime date_str acc time_text status_text slot.
    unfold scrape_slot. subst slot. cbn [time_elem status_elem].
    destruct (strptime (strip time_text)); reflexivity.
Qed.

(** C6. The four tables do not depend on the order of the rows of the
    frame: two frames that are permutations of each other give the same
    tables.  Each table is in strictly increasing order of its key; and
    table 3 is the only strictly increasing arrangement of its rows, so
    its order does not depend on the sorting algorithm, stable or not. *)
Theorem aggregation_order_independent (utcoffset : Z -> Z)
    (df df' : list Row) :
  Permutation df df' ->
  main_tables utcoffset df = main_tables utcoffset df'
  /\ StronglySorted (fun a b => klt (hour_row_key a) (hour_row_key b))
       (t_hour (main_tables utcoffset df))
  /\ StronglySorted (fun a b => klt (day_row_key a) (day_row_key b))
       (t_day (main_tables utcoffset df))
  /\ StronglySorted dow_before (t_dow (main_tables utcoffset df))
  /\ StronglySorted (fun a b => klt (fst a) (fst b))
       (t_season (main_tables utcoffset df))
  /\ forall rows : list DowRow,
      Permutation rows
        (groupby dow_key dow_agg (t_day (main_tables utcoffset df))) ->
      StronglySorted (fun a b => klt (dow_sort_key a) (dow_sort_key b))
        rows ->
      rows = t_dow (main_tables utcoffset df).
Proof.
  intros P. unfold main_tables. cbv zeta. cbn [t_hour t_day t_dow t_season].
  split; [|split; [|split; [|split; [|split]]]].
  - now rewrite (df_hour_perm _ _ P).
  - apply sorted_map. rewrite df_hour_keys. apply group_keys_sorted.
  - apply sorted_map. rewrite df_day_keys. apply group_keys_sorted.
  - apply dow_avg_sorted. intros d. apply df_day_dow.
  - apply sorted_map. unfold season_avgs. rewrite groupby_keys.
    + apply group_keys_sorted.
    + reflexivity.
  - intros rows Pr Sr. apply (sorted_rows_unique dow_sort_key); [exact Sr| |].
    + apply sort_values_sorted, dow_avg_keys_NoDup.
      intros d. apply df_day_dow.
    + etransitivity; [exact Pr|].
      apply Permutation_sym, sort_values_perm.
Qed.

(** [two_mondays] and the same two records in the other order. *)
Lemma aggregation_order_independent_witness :
  main_tables (fixed_offset (-5)) two_mondays
  = main_tables (fixed_offset (-5)) (rev two_mondays).
Proof.
  exact (proj1 (aggregation_order_independent (fixed_offset (-5))
                  two_mondays (rev two_mondays)
                  (perm_swap _ _ [])))%list.
Defined.

(** C8. Table 3 has one row for each (location, day of week) of table
    2; its value is the mean of the utilisations of the rows of table 2
    with that location and day of week; and its rows are in increasing
    order of location and, within a location, from Monday to Sunday,
    whatever the order of the input. *)
Theorem dow_table_mean_and_order (utcoffset : Z -> Z)
    (hours : list HourRow) :
  (forall w : DowRow,
      In w (dow_avg (df_day utcoffset hours)) <->
      In (dow_location w, dow_name w)
         (map dow_key (df_day utcoffset hours))
      /\ avg_utilisation w
         = mean (map utilisation
                   (members dow_key (dow_location w, dow_name w)
                      (df_day utcoffset hours))))
  /\ Forall (fun w => In (dow_name w) dow_order)
       (dow_avg (df_day utcoffset hours))
  /\ map (category_code dow_order) dow_order = [0; 1; 2; 3; 4; 5; 6]
  /\ StronglySorted dow_before (dow_avg (df_day utcoffset hours)).
Proof.
  split; [intros w; apply dow_avg_rows|].
  split; [|split; [reflexivity|]].
  - apply Forall_forall. intros w Hin. apply dow_avg_rows in Hin.
    destruct Hin as [Hk _]. apply in_map_iff in Hk.
    destruct Hk as (d & E & Hd). inversion E as [[El En]].
    eapply df_day_dow, Hd.
  - apply dow_avg_sorted. intros d. apply df_day_dow.
Qed.

End ApiProperties.

(* ------------------------------------------------------------------ *)
(** * Range of the label interpreter; the slot loop as a whole         *)
(* ------------------------------------------------------------------ *)

Module ScraperProperties.
Import Label LabelFacts Scraper Frame FrameFacts ScraperMain.

Lemma digit_value_range (c : ascii) :
  is_digit c = true -> 0 <= digit_value c <= 9.
Proof.
  destruct c as [[|] [|] [|] [|] [|] [|] [|] [|]];
    vm_compute; intuition congruence.
Qed.

Lemma int_of_digits_from (l : list ascii) (acc : Z) :
  0 <= acc -> forallb is_digit l = true ->
  0 <= fold_left (fun a c => 10 * a + digit_value c) l acc.
Proof.
  revert acc. induction l as [|c l IH]; cbn [fold_left forallb];
    intros acc Ha Hd; [exact Ha|].
  apply andb_true_iff in Hd. destruct Hd as [Hc Hl].
  apply IH; [|exact Hl]. pose proof (digit_value_range c Hc). lia.
Qed.

Lemma allb_forallb (p : ascii -> bool) (s : string) :
  allb p s = forallb p (list_ascii_of_string s).
Proof. induction s as [|c s IH]; simpl; [reflexivity | now rewrite IH]. Qed.

Lemma int_of_digits_nonneg (s : string) :
  allb is_digit s = true -> 0 <= int_of_digits s.
Proof.
  intros H. apply int_of_digits_from; [lia|]. now rewrite <- allb_forallb.
Qed.

(** The groups of a match are made of digits. *)
Lemma re_search_groups (s g1 g2 : string) :
  re_search s = Some (g1, g2) ->
  allb is_digit g1 = true /\ allb is_digit g2 = true.
Proof.
  intros R. apply re_search_leftmost in R.
  destruct R as (pre & s' & _ & M & _). apply match_here_sound in M.
  destruct M as (w1 & w2 & w3 & o & rest & _ & _ & D1 & _ & _ & _ & D2 & _).
  now split.
Qed.

Lemma bookings_le_4 (text : string) : bookings_from_label text <= 4.
Proof.
  unfold bookings_from_label. cbv zeta.
  destruct (contains "waitlist" (lower text)); [lia|].
  destruct (re_search (lower text)) as [[g1 g2]|] eqn:R.
  - destruct (re_search_groups _ _ _ R) as [D1 _].
    pose proof (int_of_digits_nonneg g1 D1).
    destruct (int_of_digits g2 =? 4); [lia|].
    destruct (int_of_digits g2 =? 2); lia.
  - destruct (contains "(1/2 open)" (lower (lower text))); lia.
Qed.

(** X1. The interpreter never reports more than 4 booked bays, and it
    reports a negative number exactly for a label without "waitlist"
    whose leftmost match has total 4 and an open count above 4. *)
Theorem bookings_from_label_range (text : string) :
  bookings_from_label text <= 4
  /\ (bookings_from_label text < 0 <->
      contains "waitlist" (lower text) = false
      /\ exists g1 g2,
          re_search (lower text) = Some (g1, g2)
          /\ int_of_digits g2 = 4 /\ 4 < int_of_digits g1).
Proof.
  unfold bookings_from_label. cbv zeta.
  destruct (contains "waitlist" (lower text)).
  { split; [lia|]. split; [lia | intros [E _]; discriminate]. }
  destruct (re_search (lower text)) as [[g1 g2]|] eqn:R.
  - destruct (re_search_groups _ _ _ R) as [D1 _].
    pose proof (int_of_digits_nonneg g1 D1) as N1.
    destruct (int_of_digits g2 =? 4) eqn:E4.
    + apply Z.eqb_eq in E4. split; [lia|]. split.
      * intros L. split; [reflexivity|]. exists g1, g2. repeat split; lia.
      * intros (_ & h1 & h2 & E & _ & L). inversion E; subst. lia.
    + apply Z.eqb_neq in E4.
      assert (Z0 : 0 <= (if int_of_digits g2 =? 2 then 2 else 0) <= 2)
        by (destruct (int_of_digits g2 =? 2); lia).
      split; [lia|]. split; [lia|].
      intros (_ & h1 & h2 & E & E4' & _). inversion E; subst. contradiction.
  - assert (Z0 : 0 <= (if contains "(1/2 open)" (lower (lower text))
                       then 2 else 0) <= 2)
      by (destruct (contains "(1/2 open)" (lower (lower text))); lia).
    split; [lia|]. split; [lia|].
    intros (_ & h1 & h2 & E & _). discriminate.
Qed.

Section Loop.
Variable Time : Type.
Variable strptime : string -> option Time.
Variable date_str : string.

Lemma scrape_slot_acc (acc : list (Booking Time) * list Printed)
    (slot : Slot) :
  scrape_slot strptime date_str acc slot
  = (fst acc ++ fst (scrape_slot strptime date_str ([], []) slot),
     snd acc ++ snd (scrape_slot strptime date_str ([], []) slot)).
Proof.
  unfold scrape_slot. destruct acc as [rows printed]. cbn [fst snd].
  destruct (time_elem slot), (status_elem slot);
    try (now rewrite !app_nil_r).
  destruct (strptime _); cbn [fst snd app]; now rewrite ?app_nil_r.
Qed.

Lemma scrape_fold (slots : list Slot)
    (acc : list (Booking Time) * list Printed) :
  fold_left (scrape_slot strptime date_str) slots acc
  = (fst acc
       ++ flat_map (fun s => fst (scrape_slot strptime date_str ([], []) s))
            slots,
     snd acc
       ++ flat_map (fun s => snd (scrape_slot strptime date_str ([], []) s))
            slots).
Proof.
  revert acc. induction slots as [|s slots IH]; intros acc; cbn [fold_left flat_map].
  - destruct acc. cbn. now rewrite !app_nil_r.
  - rewrite IH, scrape_slot_acc. cbn [fst snd]. now rewrite !app_assoc.
Qed.

Lemma scrape_slot_rows (slot : Slot) (b : Booking Time) :
  In b (fst (scrape_slot strptime date_str ([], []) slot)) ->
  date b = date_str /\ booked_bays b <= 4.
Proof.
  unfold scrape_slot.
  destruct (time_elem slot), (status_elem slot); cbn; try tauto.
  destruct (strptime _); cbn; [|tauto].
  intros [<-|[]]. cbn. split; [reflexivity|].
  apply bookings_le_4.
Qed.

Lemma scrape_slot_count (slot : Slot) :
  (List.length (fst (scrape_slot strptime date_str ([], []) slot))
   + List.length (snd (scrape_slot strptime date_str ([], []) slot)))%nat
  = match time_elem slot, status_elem slot with
    | Some _, Some _ => 1%nat
    | _, _ => 0%nat
    end.
Proof.
  unfold scrape_slot.
  destruct (time_elem slot), (status_elem slot); try reflexivity.
  now destruct (strptime _).
Qed.

Lemma scrape_day_rows_bounds (slots : list Slot) :
  Forall (fun b => date b = date_str /\ booked_bays b <= 4)
    (fst (scrape_day_rows strptime date_str slots)).
Proof.
  destruct slots as [|slot slots]; [constructor|].
  unfold scrape_day_rows. rewrite scrape_fold. cbn [fst app].
  apply Forall_forall. intros b Hb. apply in_flat_map in Hb.
  destruct Hb as (s & _ & Hb). eapply scrape_slot_rows, Hb.
Qed.

End Loop.

(** X2. For a non-empty list of slots the loop of [scrape_day] works
    slot by slot: the rows, and what is printed, are the concatenation,
    in slot order, of what each slot gives on its own, so a slot that
    fails to parse takes no other slot with it.  Every row carries the
    date of the scrape and at most 4 booked bays, and each slot with a
    time element and a status element gives either one row or one
    printed error. *)
Theorem scrape_day_rows_per_slot (Time : Type)
    (strptime : string -> option Time) (date_str : string)
    (slot : Slot) (slots : list Slot) :
  scrape_day_rows strptime date_str (slot :: slots)
  = (flat_map (fun s => fst (scrape_slot strptime date_str ([], []) s))
       (slot :: slots),
     flat_map (fun s => snd (scrape_slot strptime date_str ([], []) s))
       (slot :: slots))
  /\ Forall (fun b => date b = date_str /\ booked_bays b <= 4)
       (fst (scrape_day_rows strptime date_str (slot :: slots)))
  /\ (List.length (fst (scrape_day_rows strptime date_str (slot :: slots)))
      + List.length (snd (scrape_day_rows strptime date_str (slot :: slots))))%nat
     = List.length
         (filter (fun s => match time_elem s, status_elem s with
                           | Some _, Some _ => true
                           | _, _ => false
                           end)
                 (slot :: slots)).
Proof.
  assert (E : scrape_day_rows strptime date_str (slot :: slots)
              = (flat_map
                   (fun s => fst (scrape_slot strptime date_str ([], []) s))
                   (slot :: slots),
                 flat_map
                   (fun s => snd (scrape_slot strptime date_str ([], []) s))
                   (slot :: slots))).
  { unfold scrape_day_rows. now rewrite scrape_fold. }
  split; [exact E|]. split; [apply scrape_day_rows_bounds|].
  rewrite E. cbn [fst snd].
  - generalize (slot :: slots). intros l.
    induction l as [|s l IH]; [reflexivity|].
    cbn [flat_map filter]. rewrite !length_app.
    pose proof (scrape_slot_count Time strptime date_str s) as C.
    destruct (time_elem s), (status_elem s); cbn [List.length]; lia.
Qed.

End ScraperProperties.

(* ------------------------------------------------------------------ *)
(** * golf_scraper.py : how [main] ends                                *)
(* ------------------------------------------------------------------ *)

Module ScraperMainProperties.
Import Label LabelFacts Scraper Frame FrameFacts ScraperMain ScraperProperties.

Lemma round_half_even_le (x : Q) (n : Z) :
  (x <= inject_Z n)%Q -> round_half_even x <= n.
Proof.
  intros Hx. unfold round_half_even. cbv zeta.
  pose proof (Qfloor_resp_le _ _ Hx) as Hf. rewrite Qfloor_Z in Hf.
  destruct (Z.eq_dec (Qfloor x) n) as [E|N].
  - assert (L : ((x - inject_Z (Qfloor x)) ?= (1 # 2))%Q = Lt).
    { apply (proj1 (Qlt_alt _ _)). pose proof (Qfloor_le x) as Hl.
      rewrite E in *.
      clear Hf. generalize dependent (inject_Z n). intros y Hx Hl. lra. }
    rewrite L. lia.
  - destruct (_ ?= _)%Q; [destruct (Z.even _)| |]; lia.
Qed.

Lemma round3_le_1 (a b : Z) :
  0 < b -> a <= b ->
  exists q, round3 (truediv a b) = Fin q /\ (q <= 1)%Q.
Proof.
  intros Hb Hab. unfold truediv.
  destruct (b =? 0) eqn:E; [apply Z.eqb_eq in E; lia|].
  cbn [round3]. eexists. split; [reflexivity|].
  rewrite Qred_correct. apply Qle_shift_div_r; [reflexivity|].
  change (1 * 1000)%Q with (inject_Z 1000). rewrite <- Zle_Qle.
  apply round_half_even_le. rewrite Qred_correct.
  assert (D : (inject_Z a / inject_Z b <= 1)%Q).
  { apply Qle_shift_div_r.
    - change 0%Q with (inject_Z 0). now rewrite <- Zlt_Qlt.
    - rewrite Qmult_1_l. now rewrite <- Zle_Qle. }
  change (inject_Z 1000) with (1000%Q). lra.
Qed.

Section Summary.
Context {R : Type}.
Variable key : R -> string.

(** A frame whose rows all have the key [k] has the single group [k]. *)
Lemma group_keys_single (k : string) (r : R) (rows : list R) :
  (forall x, In x (r :: rows) -> key x = k) ->
  group_keys key (r :: rows) = [k]
  /\ members key k (r :: rows) = r :: rows.
Proof.
  intros H. split.
  - apply (sorted_ext (K := string)).
    + apply group_keys_sorted.
    + repeat constructor.
    + intros x. rewrite group_keys_In, in_map_iff. split.
      * intros (y & <- & Hy). left. symmetry. now apply H.
      * intros [<-|[]]. exists r. split; [apply H|]; now left.
  - unfold members. apply forallb_filter_id. apply forallb_forall.
    intros x Hx. apply keqb_eq. now apply H.
Qed.

End Summary.

Lemma sumZ_le_4 {A : Type} (f : A -> Z) (l : list A) :
  Forall (fun x => f x <= 4) l -> sumZ f l <= 4 * Z.of_nat (List.length l).
Proof.
  induction 1 as [|x l Hx _ IH]; [reflexivity|].
  rewrite sumZ_cons. cbn [List.length]. lia.
Qed.

(** X3. [main] scrapes the first of its days only. With no day it
    computes nothing; when the scrape of that day gives no row it stops
    on the missing column [date]; otherwise the summary has exactly one
    row, for that day, whose count is the number of rows scraped, at
    least 1, whose sum is at most 4 times the count, and whose
    utilization is a number, at most 1. *)
Theorem main_outcome (Time : Type) (strptime : string -> option Time)
    (slots_of : string -> list Slot) (days : list string) :
  match main strptime slots_of days with
  | NoFrames => days = []
  | KeyErrorDate =>
      exists day rest,
        days = day :: rest
        /\ fst (scrape_day_rows strptime day (slots_of day)) = []
  | Summary summary =>
      exists day rest row,
        days = day :: rest
        /\ summary = [row]
        /\ summary_date row = day
        /\ summary_count row
           = Z.of_nat (List.length
                         (fst (scrape_day_rows strptime day (slots_of day))))
        /\ summary_sum row
           = sumZ booked_bays
               (fst (scrape_day_rows strptime day (slots_of day)))
        /\ 1 <= summary_count row
        /\ summary_sum row <= 4 * summary_count row
        /\ exists q, utilization row = Fin q /\ (q <= 1)%Q
  end.
Proof.
  unfold main. cbv zeta. destruct days as [|day rest]; [reflexivity|].
  cbn [firstn map List.concat]. rewrite app_nil_r.
  destruct (fst (scrape_day_rows strptime day (slots_of day)))
    as [|b df] eqn:E.
  - exists day, rest. now split.
  - assert (B : Forall (fun x => date x = day /\ booked_bays x <= 4)
                  (b :: df)).
    { rewrite <- E. apply scrape_day_rows_bounds. }
    destruct (group_keys_single date day b df) as [K M].
    { intros x Hx. rewrite Forall_forall in B. now apply B. }
    unfold daily_summary, groupby. rewrite K. cbn [map]. rewrite M.
    assert (S4 : sumZ booked_bays (b :: df)
                 <= 4 * Z.of_nat (List.length (b :: df))).
    { apply sumZ_le_4. eapply Forall_impl; [|exact B]. now intros x [_ H]. }
    eexists day, rest, _. rewrite E.
    cbn [summary_date summary_count summary_sum utilization].
    do 5 (split; [reflexivity|]).
    cbn [summary_date summary_count summary_sum utilization List.length]
      in *.
    split; [lia|]. split; [lia|]. apply round3_le_1; lia.
Qed.

End ScraperMainProperties.

(* ------------------------------------------------------------------ *)
(** * scarper_api.py : the cache and the paging loop                   *)
(* ------------------------------------------------------------------ *)

Module CacheProperties.
Import Frame FrameFacts Api Cache.

Lemma extends_refl (a : Files) : extends a a.
Proof. intros f d H. exact H. Qed.

Lemma extends_trans (a b c : Files) :
  extends a b -> extends b c -> extends a c.
Proof. intros H1 H2 f d H. apply H2, H1, H. Qed.

Lemma extends_write (files : Files) (fname : string) (data : Page) :
  files fname = None -> extends files (write_file files fname data).
Proof.
  intros N f d H. unfold write_file.
  destruct (String.eqb_spec f fname) as [->|]; [congruence | exact H].
Qed.

Lemma write_file_same (files : Files) (fname : string) (data : Page) :
  write_file files fname data fname = Some data.
Proof. unfold write_file. now rewrite String.eqb_refl. Qed.

Lemma write_file_other (files : Files) (fname f : string) (data : Page) :
  f <> fname -> write_file files fname data f = files f.
Proof.
  intros N. unfold write_file.
  destruct (String.eqb_spec f fname); [contradiction | reflexivity].
Qed.

Section Facts.
Variable urlencode : Params -> string.
Variable quote_plus : string -> string.
Variable urljoin : string -> string -> string.

Lemma cache_get_hit (get : string -> option Params -> option Page)
    (files : Files) (url : string) (params : option Params) (data : Page) :
  files (cache_file urlencode quote_plus url params) = Some data ->
  cache_get urlencode quote_plus get files url params = (Some data, files).
Proof. intros H. unfold cache_get. cbv zeta. now rewrite H. Qed.

Lemma cache_get_stores (get : string -> option Params -> option Page)
    (files files' : Files) (url : string) (params : option Params)
    (r : option Page) :
  cache_get urlencode quote_plus get files url params = (r, files') ->
  extends files files'
  /\ (forall data, r = Some data ->
        files' (cache_file urlencode quote_plus url params) = Some data)
  /\ (r = None -> files' = files)
  /\ (forall f, f <> cache_file urlencode quote_plus url params ->
        files' f = files f).
Proof.
  unfold cache_get. cbv zeta.
  destruct (files (cache_file urlencode quote_plus url params))
    as [d|] eqn:F.
  - intros E. inversion E; subst. split; [|split; [|split]].
    + apply extends_refl.
    + intros data D. congruence.
    + discriminate.
    + reflexivity.
  - destruct (get url params) as [d|]; intros E; inversion E; subst;
      (split; [|split; [|split]]).
    + now apply extends_write.
    + intros data D. inversion D; subst. apply write_file_same.
    + discriminate.
    + intros f N. now apply write_file_other.
    + apply extends_refl.
    + discriminate.
    + reflexivity.
    + reflexivity.
Qed.

Lemma fetch_pages_extends (get : string -> option Params -> option Page)
    (fuel : nat) (files : Files) (url : option string)
    (params : option Params) (rows : list ApiRecord) :
  extends files
    (snd (fetch_pages urlencode quote_plus urljoin get fuel files url
            params rows)).
Proof.
  revert files url params rows.
  induction fuel as [|fuel IH]; intros files url params rows;
    destruct url as [[|c u]|]; cbn [fetch_pages snd];
    try apply extends_refl.
  destruct (cache_get urlencode quote_plus get files (String c u) params)
    as [[j|] files1] eqn:G; cbn [snd];
    destruct (cache_get_stores _ _ _ _ _ _ G) as (X & _).
  - eapply extends_trans; [exact X | apply IH].
  - exact X.
Qed.

End Facts.

(** X4. [cache_get] writes at most the file of its request and never
    changes a file that exists: a call that raises leaves the files as
    they were, and once a call has returned a payload, the same request
    returns that payload again from the files, whatever the network
    would answer, and writes nothing. *)
Theorem cache_get_write_once (urlencode : Params -> string)
    (quote_plus : string -> string)
    (get get' : string -> option Params -> option Page)
    (files : Files) (url : string) (params : option Params) :
  extends files
    (snd (cache_get urlencode quote_plus get files url params))
  /\ (forall f, f <> cache_file urlencode quote_plus url params ->
        snd (cache_get urlencode quote_plus get files url params) f
        = files f)
  /\ match fst (cache_get urlencode quote_plus get files url params) with
     | None =>
         snd (cache_get urlencode quote_plus get files url params) = files
     | Some data =>
         cache_get urlencode quote_plus get'
           (snd (cache_get urlencode quote_plus get files url params))
           url params
         = (Some data,
            snd (cache_get urlencode quote_plus get files url params))
     end.
Proof.
  destruct (cache_get urlencode quote_plus get files url params)
    as [r files'] eqn:G. cbn [fst snd].
  destruct (cache_get_stores _ _ _ _ _ _ _ _ G) as (X & S & N & O).
  repeat split; [exact X | exact O |].
  destruct r as [data|]; [|now apply N].
  apply cache_get_hit. now apply S.
Qed.

(** X5. The cache key of a request does not depend on the order in
    which the parameters were put in the dict, and a request with an
    empty dict has the key of a request without parameters. *)
Theorem cache_key_order_independent (urlencode : Params -> string)
    (url : string) (params params' : Params) :
  NoDup (map fst params) ->
  Permutation params params' ->
  cache_key urlencode url (Some params)
  = cache_key urlencode url (Some params')
  /\ cache_key urlencode url (Some []) = cache_key urlencode url None.
Proof.
  intros ND P. split; [|reflexivity].
  assert (E : sorted_items params = sorted_items params').
  { unfold sorted_items. apply (sorted_rows_unique fst).
    - now apply sort_values_sorted.
    - apply sort_values_sorted.
      eapply Permutation_NoDup; [|exact ND]. now apply Permutation_map.
    - etransitivity; [apply sort_values_perm|].
      etransitivity; [exact P|]. apply Permutation_sym, sort_values_perm. }
  unfold cache_key. destruct params as [|x params].
  - apply Permutation_nil in P. now subst.
  - destruct params' as [|y params'].
    + apply Permutation_sym, Permutation_nil in P. discriminate.
    + now rewrite E.
Qed.

(** The dict of [fetch_range] and the same items put in another order. *)
Lemma cache_key_order_independent_witness :
  cache_key (fun _ => "q") BASE_URL
    (Some (range_params "2022-06-09" "2025-04-29" REGION_ID))
  = cache_key (fun _ => "q") BASE_URL
      (Some (rev (range_params "2022-06-09" "2025-04-29" REGION_ID))).
Proof.
  refine (proj1 (cache_key_order_independent (fun _ => "q") BASE_URL
                   (range_params "2022-06-09" "2025-04-29" REGION_ID)
                   (rev (range_params "2022-06-09" "2025-04-29" REGION_ID))
                   _ _)).
  - cbn. repeat constructor; cbn; intuition discriminate.
  - apply Permutation_rev.
Defined.

(** X6. A run of the paging loop that has ended with its rows can be
    repeated from the files it left, or from any files that contain
    them: the repeated run gives the same rows, whatever the network
    would answer now, and leaves the files as they are. *)
Theorem fetch_pages_replay (urlencode : Params -> string)
    (quote_plus : string -> string) (urljoin : string -> string -> string)
    (get get' : string -> option Params -> option Page)
    (fuel : nat) (files : Files) (url : option string)
    (params : option Params) (rows out : list ApiRecord)
    (files' later : Files) :
  fetch_pages urlencode quote_plus urljoin get fuel files url params rows
  = (Rows out, files') ->
  extends files' later ->
  fetch_pages urlencode quote_plus urljoin get' fuel later url params rows
  = (Rows out, later).
Proof.
  revert files url params rows.
  induction fuel as [|fuel IH]; intros files url params rows H X;
    destruct url as [[|c u]|]; cbn [fetch_pages] in *;
    try (inversion H; subst; reflexivity); try discriminate.
  destruct (cache_get urlencode quote_plus get files (String c u) params)
    as [[j|] files1] eqn:G; [|discriminate].
  destruct (cache_get_stores _ _ _ _ _ _ _ _ G) as (_ & S & _).
  assert (X1 : extends files1 files').
  { pose proof (fetch_pages_extends urlencode quote_plus urljoin get fuel
                  files1 (next_url urljoin j) None (rows ++ results j))
      as Y. now rewrite H in Y. }
  rewrite (cache_get_hit urlencode quote_plus get' later (String c u)
             params j).
  - eapply IH; eassumption.
  - apply X, X1, S. reflexivity.
Qed.

(** One page, fetched and then read again with no network. *)
Lemma fetch_pages_replay_witness :
  fetch_pages (fun _ => "") (fun u => u) (fun _ u => u) (fun _ _ => None) 1
    (write_file no_files "u.json" {| results := []; next := None |})
    (Some "u") None []
  = (Rows [],
     write_file no_files "u.json" {| results := []; next := None |}).
Proof.
  apply (fetch_pages_replay (fun _ => "") (fun u => u) (fun _ u => u)
           (fun _ _ => Some {| results := []; next := None |})
           (fun _ _ => None) 1 no_files (Some "u") None [] []
           (write_file no_files "u.json" {| results := []; next := None |})).
  - reflexivity.
  - intros f d H. exact H.
Defined.

Section Chain.
Variable urlencode : Params -> string.
Variable quote_plus : string -> string.
Variable urljoin : string -> string -> string.
Variable get : string -> option Params -> option Page.

(** One round of the loop on a request whose file is not there. *)
Lemma fetch_pages_round (fuel : nat) (files : Files) (this : string)
    (params : option Params) (rows : list ApiRecord) (j : Page) :
  truthy (Some this) = true ->
  files (cache_file urlencode quote_plus this params) = None ->
  get this params = Some j ->
  fetch_pages urlencode quote_plus urljoin get (S fuel) files (Some this)
    params rows
  = fetch_pages urlencode quote_plus urljoin get fuel
      (write_file files (cache_file urlencode quote_plus this params) j)
      (next_url urljoin j) None (rows ++ results j).
Proof.
  intros T N G. destruct this as [|c u]; [discriminate|].
  cbn [fetch_pages]. unfold cache_get. cbv zeta. now rewrite N, G.
Qed.

Lemma fetch_pages_rows (pages : list Page) (fuel : nat) (files : Files)
    (url : option string) (params : option Params)
    (rows : list ApiRecord) :
  serves urljoin get url params pages ->
  NoDup (request_files urlencode quote_plus urljoin url params pages) ->
  (forall f,
      In f (request_files urlencode quote_plus urljoin url params pages) ->
      files f = None) ->
  (List.length pages <= fuel)%nat ->
  fst (fetch_pages urlencode quote_plus urljoin get fuel files url params
         rows)
  = Rows (rows ++ flat_map results pages).
Proof.
  revert fuel files url params rows.
  induction pages as [|j pages IH]; intros fuel files url params rows Hs ND N L.
  - cbn [serves] in Hs.
    destruct url as [[|c u]|]; try discriminate;
      destruct fuel; cbn; now rewrite app_nil_r.
  - destruct url as [this|]; [|destruct Hs].
    destruct Hs as (T & G & Hs).
    destruct fuel as [|fuel]; [cbn in L; lia|].
    cbn [request_files] in ND, N. inversion ND as [|? ? Nin ND']; subst.
    rewrite (fetch_pages_round fuel files this params rows j T
               (N _ (or_introl eq_refl)) G).
    rewrite IH; try assumption.
    + cbn [flat_map]. now rewrite app_assoc.
    + intros f Hf. rewrite write_file_other; [apply N; now right|].
      intros ->. contradiction.
    + cbn in L. lia.
Qed.

End Chain.



End CacheProperties.

(* ------------------------------------------------------------------ *)
(** * scarper_api.py : more on the rollup tables                       *)
(* ------------------------------------------------------------------ *)

Module RollupProperties.
Import Frame FrameFacts Api ApiFacts Interval.

Lemma filter_all {A : Type} (l : list A) : filter (fun _ => true) l = l.
Proof. induction l as [|x l IH]; cbn; [reflexivity | now rewrite IH]. Qed.

(** Summing a column of sums over the output of [groupby] is summing
    the column over the frame. *)
Lemma groupby_sum {R K Out : Type} `{CmpLaws K} (key : R -> K)
    (agg : K -> list R -> Out) (g : Out -> Z) (f : R -> Z)
    (rows : list R) :
  (forall k grp, g (agg k grp) = sumZ f grp) ->
  sumZ g (groupby key agg rows) = sumZ f rows.
Proof.
  intros Hg. unfold groupby. rewrite sumZ_map.
  rewrite (sumZ_ext _ (fun k => sumZ f (members key k rows)))
    by (intros k _; apply Hg).
  rewrite <- (filter_all (group_keys key rows)).
  rewrite (sumZ_groups key f (fun _ => true) rows).
  - now rewrite filter_all.
  - apply group_keys_NoDup.
  - intros r Hr. apply group_keys_In. now apply in_map.
Qed.

(** X8. No capacity and no booking is lost or counted twice by the
    rollups: the offered and the sold bay hours of table 1, summed over
    its rows, are the capacities and the booked counts of the frame,
    summed over its rows, and the same holds for table 2. *)
Theorem rollup_totals_conserved (utcoffset : Z -> Z) (df : list Row) :
  sumZ bay_hours_offered (df_hour df) = sumZ capacity df
  /\ sumZ bay_hours_sold (df_hour df) = sumZ bays_booked df
  /\ sumZ hours_offered (df_day utcoffset (df_hour df)) = sumZ capacity df
  /\ sumZ hours_sold (df_day utcoffset (df_hour df)) = sumZ bays_booked df.
Proof.
  assert (Ho : sumZ bay_hours_offered (df_hour df) = sumZ capacity df)
    by (unfold df_hour; now apply groupby_sum).
  assert (Hs : sumZ bay_hours_sold (df_hour df) = sumZ bays_booked df)
    by (unfold df_hour; now apply groupby_sum).
  repeat split; [exact Ho | exact Hs | |].
  - rewrite <- Ho. unfold df_day. now apply groupby_sum.
  - rewrite <- Hs. unfold df_day. now apply groupby_sum.
Qed.

(** X9. Table 2 has one row for each (location, local date): the day
    name of a row is the one of its date, so the third key column
    splits no group. *)
Theorem one_row_per_day (utcoffset : Z -> Z) (hours : list HourRow) :
  NoDup (map (fun d => (day_location d, date_local d))
           (df_day utcoffset hours))
  /\ Forall (fun d => dow d = day_name (date_local d))
       (df_day utcoffset hours).
Proof.
  assert (F : forall k, In k (group_keys (day_key utcoffset) hours) ->
                        snd k = day_name (snd (fst k))).
  { intros k Hk. apply group_keys_In, in_map_iff in Hk.
    destruct Hk as (h & <- & _). reflexivity. }
  split.
  - rewrite (map_ext _ (fun d => fst (day_row_key d))) by reflexivity.
    rewrite <- (map_map day_row_key fst), df_day_keys.
    apply NoDup_map_NoDup_ForallPairs; [|apply group_keys_NoDup].
    intros [a1 n1] [a2 n2] H1 H2 E. cbn in E. subst a2.
    apply F in H1, H2. cbn in H1, H2. congruence.
  - apply Forall_forall. intros d Hd.
    assert (K : In (day_row_key d) (group_keys (day_key utcoffset) hours)).
    { rewrite <- df_day_keys. now apply in_map. }
    apply F in K. exact K.
Qed.

Lemma NoDup_same_location (l : list DowRow) (loc : string) :
  NoDup (map (fun w => (dow_location w, dow_name w)) l) ->
  (forall w, In w l -> dow_location w = loc) ->
  NoDup (map dow_name l).
Proof.
  induction l as [|w l IH]; cbn; intros ND L; [constructor|].
  inversion ND as [|? ? Nin ND']; subst. constructor.
  - intros Hin. apply Nin. apply in_map_iff in Hin.
    destruct Hin as (w' & E & Hw'). apply in_map_iff. exists w'.
    split; [|exact Hw'].
    now rewrite E, (L w (or_introl eq_refl)), (L w' (or_intror Hw')).
  - apply IH; [exact ND'|]. intros w' Hw'. apply L. now right.
Qed.

(** Dropping rows keeps the keys of a frame pairwise distinct. *)
Lemma filter_keeps_distinct_keys {R K : Type} (key : R -> K)
    (keep : R -> bool) (rows : list R) (ND : NoDup (map key rows)) :
  NoDup (map key (filter keep rows)).
Proof.
  induction rows as [|r rows IH]; [constructor|].
  cbn [map] in ND. apply NoDup_cons_iff in ND. destruct ND as [Nin ND].
  cbn [filter]. destruct (keep r); [|now apply IH].
  cbn [map]. apply NoDup_cons; [|now apply IH].
  intros Hin. apply Nin. apply in_map_iff in Hin.
  destruct Hin as (r' & E & Hr'). apply filter_In in Hr'.
  apply in_map_iff. exists r'. tauto.
Qed.

(** X10. Table 3 has at most seven rows for a location, with pairwise
    different day names. *)
Theorem dow_rows_per_location (utcoffset : Z -> Z) (hours : list HourRow)
    (loc : string) :
  NoDup (map dow_name
           (filter (fun w => String.eqb (dow_location w) loc)
                   (dow_avg (df_day utcoffset hours))))
  /\ (List.length
        (filter (fun w => String.eqb (dow_location w) loc)
                (dow_avg (df_day utcoffset hours))) <= 7)%nat.
Proof.
  set (days := df_day utcoffset hours).
  assert (ND : NoDup (map dow_name
                        (filter (fun w => String.eqb (dow_location w) loc)
                                (dow_avg days)))).
  { apply (NoDup_same_location _ loc).
    - apply filter_keeps_distinct_keys.
      eapply Permutation_NoDup.
      + apply Permutation_map, Permutation_sym. rewrite dow_avg_unfold.
        apply sort_values_perm.
      + rewrite (groupby_keys dow_key dow_agg
                   (fun w => (dow_location w, dow_name w)))
          by (now intros [l n] grp).
        apply group_keys_NoDup.
    - intros w Hw. apply filter_In in Hw. now apply String.eqb_eq. }
  split; [exact ND|].
  rewrite <- (length_map dow_name).
  change 7%nat with (List.length dow_order).
  apply NoDup_incl_length; [exact ND|].
  intros n Hn. apply in_map_iff in Hn. destruct Hn as (w & <- & Hw).
  apply filter_In in Hw. destruct Hw as [Hw _].
  apply dow_avg_rows in Hw. destruct Hw as [Hk _].
  apply in_map_iff in Hk. destruct Hk as (d & E & Hd).
  inversion E as [[El En]]. eapply df_day_dow, Hd.
Qed.

(** ** Seasons *)

Lemma classify_season_cases (month : Z) :
  (classify_season month = "Winter"
   /\ (month = 12 \/ month = 1 \/ month = 2))
  \/ (classify_season month = "Spring" /\ 3 <= month <= 5)
  \/ (classify_season month = "Summer" /\ 6 <= month <= 8)
  \/ (classify_season month = "Fall"
      /\ (month < 1 \/ 9 <= month <= 11 \/ 12 < month)).
Proof.
  unfold classify_season.
  repeat match goal with
         | |- context [?a =? ?b] =>
             destruct (Z.eqb_spec a b); cbn [orb]
         end;
    try (left; split; [reflexivity | lia]);
    try (right; left; split; [reflexivity | lia]);
    try (right; right; left; split; [reflexivity | lia]);
    right; right; right; split; [reflexivity | lia].
Qed.

(** X11. [classify_season] sends December to February to Winter, March
    to May to Spring, June to August to Summer and every other number,
    the months September to November and the numbers that are no
    month, to Fall; so each row of table 2 is in the group of exactly
    one of the four season categories, and the four groups of a frame
    have as many rows together as the frame. *)
Theorem season_groups_partition :
  (forall month : Z,
      (classify_season month = "Winter"
       <-> month = 12 \/ month = 1 \/ month = 2)
      /\ (classify_season month = "Spring" <-> 3 <= month <= 5)
      /\ (classify_season month = "Summer" <-> 6 <= month <= 8)
      /\ (classify_season month = "Fall"
          <-> month < 1 \/ 9 <= month <= 11 \/ 12 < month))
  /\ forall grp : list DayRow,
      list_sum
        (map (fun s =>
                List.length
                  (filter (fun d => String.eqb (season d) s) grp))
             season_order)
      = List.length grp.
Proof.
  split.
  - intros month.
    destruct (classify_season_cases month)
      as [[E H]|[[E H]|[[E H]|[E H]]]]; rewrite E;
      repeat split; intros;
      first [reflexivity | discriminate | lia].
  - induction grp as [|d grp IH]; [reflexivity|].
    cbn [season_order map list_sum filter] in *.
    destruct (classify_season_cases (month_of_days (date_local d)))
      as [[E _]|[[E _]|[[E _]|[E _]]]];
      change (classify_season (month_of_days (date_local d)))
        with (season d) in E;
      rewrite E;
      repeat match goal with
             | |- context [String.eqb ?a ?b] =>
                 let v := eval vm_compute in (String.eqb a b) in
                 change (String.eqb a b) with v
             end;
      unfold list_sum in *; cbn [List.length fold_right] in *; lia.
Qed.

(** ** Utilisation between 0 and 1 *)

Lemma truediv_unit (a b : Z) :
  0 < b -> 0 <= a <= b -> unit_interval (truediv a b).
Proof.
  intros Hb Hab. unfold truediv.
  destruct (b =? 0) eqn:E; [apply Z.eqb_eq in E; lia|].
  eexists. split; [reflexivity|]. rewrite Qred_correct.
  assert (B : (0 < inject_Z b)%Q)
    by (change 0%Q with (inject_Z 0); now rewrite <- Zlt_Qlt).
  split.
  - apply Qle_shift_div_l; [exact B|]. rewrite Qmult_0_l.
    change 0%Q with (inject_Z 0). rewrite <- Zle_Qle. lia.
  - apply Qle_shift_div_r; [exact B|]. rewrite Qmult_1_l.
    rewrite <- Zle_Qle. lia.
Qed.

Lemma sum_bounds {A : Type} (sold offered : A -> Z) (l : list A) :
  Forall (fun r => 0 < offered r /\ 0 <= sold r <= offered r) l ->
  l <> [] ->
  0 < sumZ offered l /\ 0 <= sumZ sold l <= sumZ offered l.
Proof.
  induction 1 as [|x l Hx F IH]; intros N; [congruence|].
  rewrite !sumZ_cons. destruct l as [|y l].
  - cbn. lia.
  - assert (N' : y :: l <> []) by discriminate. specialize (IH N'). lia.
Qed.

Lemma members_nonempty {R K : Type} `{CmpLaws K} (key : R -> K) (k : K)
    (rows : list R) :
  In k (map key rows) -> members key k rows <> [].
Proof.
  intros Hin E. apply in_map_iff in Hin. destruct Hin as (r & <- & Hr).
  assert (X : In r (members key (key r) rows)).
  { apply filter_In. split; [exact Hr|]. now apply keqb_eq. }
  rewrite E in X. destruct X.
Qed.

Lemma members_Forall {R K : Type} `{Cmp K} (key : R -> K) (k : K)
    (P : R -> Prop) (rows : list R) :
  Forall P rows -> Forall P (members key k rows).
Proof.
  intros F. apply Forall_forall. intros r Hr. apply filter_In in Hr.
  rewrite Forall_forall in F. now apply F.
Qed.

Lemma fold_fadd_unit (l : list float64) (q0 : Q) :
  Forall unit_interval l ->
  exists s,
    fold_left fadd l (Fin q0) = Fin s
    /\ (q0 <= s <= q0 + inject_Z (Z.of_nat (List.length l)))%Q.
Proof.
  intros F. revert q0. induction F as [|x l (q & -> & Hq) F IH]; intros q0.
  - exists q0. split; [reflexivity|]. cbn [List.length Z.of_nat].
    change (inject_Z 0) with 0%Q. lra.
  - cbn [fold_left fadd]. destruct (IH (Qred (q0 + q))) as (s & -> & Hs).
    exists s. split; [reflexivity|].
    rewrite Qred_correct in Hs. cbn [List.length].
    rewrite Nat2Z.inj_succ. unfold Z.succ. rewrite inject_Z_plus.
    change (inject_Z 1) with 1%Q. lra.
Qed.

Lemma filter_notna_unit (l : list float64) :
  Forall unit_interval l -> filter notna l = l.
Proof.
  induction 1 as [|x l (q & -> & _) F IH]; cbn; [reflexivity|].
  now rewrite IH.
Qed.

Lemma mean_unit (l : list float64) :
  l <> [] -> Forall unit_interval l -> unit_interval (mean l).
Proof.
  intros N F. unfold mean. rewrite (filter_notna_unit l F).
  destruct l as [|x l]; [congruence|].
  destruct (fold_fadd_unit (x :: l) 0 F) as (s & -> & Hs).
  cbn [fdiv_count]. eexists. split; [reflexivity|].
  rewrite Qred_correct.
  assert (B : (0 < inject_Z (Z.of_nat (List.length (x :: l))))%Q).
  { change 0%Q with (inject_Z 0). rewrite <- Zlt_Qlt. cbn [List.length]. lia. }
  split.
  - apply Qle_shift_div_l; [exact B|]. lra.
  - apply Qle_shift_div_r; [exact B|]. lra.
Qed.

(** X12. When every record of the frame has a positive capacity and a
    booked count between 0 and its capacity, every utilisation of
    table 1 and of table 2 and every average of table 3 is a number
    between 0 and 1, and every per-season average is one as well, or
    NaN for a season without a day. *)
Theorem utilisation_in_unit_interval (utcoffset : Z -> Z) (df : list Row) :
  (forall r, In r df ->
             0 < capacity r /\ 0 <= bays_booked r <= capacity r) ->
  Forall (fun h => unit_interval (hour_utilisation h)) (df_hour df)
  /\ Forall (fun d => unit_interval (utilisation d))
       (df_day utcoffset (df_hour df))
  /\ Forall (fun w => unit_interval (avg_utilisation w))
       (dow_avg (df_day utcoffset (df_hour df)))
  /\ Forall (fun lt =>
               Forall (fun sv => snd sv = NaN \/ unit_interval (snd sv))
                 (snd lt))
       (season_avgs (df_day utcoffset (df_hour df))).
Proof.
  intros Hdf.
  assert (Fdf : Forall (fun r => 0 < capacity r
                                 /\ 0 <= bays_booked r <= capacity r) df)
    by now apply Forall_forall.
  assert (Fh : Forall (fun h => 0 < bay_hours_offered h
                                /\ 0 <= bay_hours_sold h
                                   <= bay_hours_offered h)
                 (df_hour df)).
  { apply Forall_forall. intros h Hh.
    destruct (df_hour_rows df h Hh) as (Hk & -> & -> & _).
    apply sum_bounds; [now apply members_Forall|].
    now apply members_nonempty. }
  assert (Fd : Forall (fun d => 0 < hours_offered d
                                /\ 0 <= hours_sold d <= hours_offered d)
                 (df_day utcoffset (df_hour df))).
  { apply Forall_forall. intros d Hd.
    destruct (df_day_rows _ _ _ Hd) as (Hk & -> & -> & _).
    apply sum_bounds; [now apply members_Forall|].
    now apply members_nonempty. }
  assert (Ud : Forall (fun d => unit_interval (utilisation d))
                 (df_day utcoffset (df_hour df))).
  { apply Forall_forall. intros d Hd.
    destruct (df_day_rows _ _ _ Hd) as (_ & _ & _ & ->).
    rewrite Forall_forall in Fd. destruct (Fd d Hd) as [Ho Hs].
    now apply truediv_unit. }
  assert (Um : forall p (l : list DayRow),
               (forall d, In d l -> In d (df_day utcoffset (df_hour df))) ->
               Forall unit_interval (map utilisation (filter p l))).
  { intros p l Hl. apply Forall_map, Forall_forall. intros d Hd.
    apply filter_In in Hd. rewrite Forall_forall in Ud.
    apply Ud, Hl, Hd. }
  split; [|split; [exact Ud|split]].
  - apply Forall_forall. intros h Hh.
    destruct (df_hour_rows df h Hh) as (_ & _ & _ & ->).
    rewrite Forall_forall in Fh. destruct (Fh h Hh) as [Ho Hs].
    now apply truediv_unit.
  - apply Forall_forall. intros w Hw. apply dow_avg_rows in Hw.
    destruct Hw as [Hk ->]. apply mean_unit.
    + intros E. apply map_eq_nil in E. revert E.
      now apply members_nonempty.
    + apply Um. auto.
  - apply Forall_forall. intros [loc table] Hlt.
    apply season_avgs_rows in Hlt. destruct Hlt as [_ ->]. cbn [snd].
    apply Forall_map, Forall_forall. intros s _. cbn [snd].
    destruct (filter (fun d => String.eqb (season d) s)
                (members day_location loc
                   (df_day utcoffset (df_hour df)))) as [|d l] eqn:E.
    + left. reflexivity.
    + right. apply mean_unit; [discriminate|]. rewrite <- E.
      apply Um. intros x Hx. apply filter_In in Hx. tauto.
Qed.

(** The frame [two_mondays]. *)
Lemma utilisation_in_unit_interval_witness :
  Forall (fun h => unit_interval (hour_utilisation h)) (df_hour two_mondays).
Proof.
  refine (proj1 (utilisation_in_unit_interval (fixed_offset (-5))
                   two_mondays _)).
  intros r [<-|[<-|[]]]; cbn; lia.
Defined.

End RollupProperties.

(* ------------------------------------------------------------------ *)
(** * scarper_api.py : [fetch_range] as a whole; chart file names      *)
(* ------------------------------------------------------------------ *)

Module FetchProperties.
Import Label LabelFacts Frame FrameFacts Api Cache CacheProperties Charts.

Lemma normalize_records_all (to_datetime_utc : string -> option Z)
    (recs : list ApiRecord) :
  (forall r, In r recs ->
             exists t, to_datetime_utc (start_datetime r) = Some t) ->
  exists df,
    normalize_records to_datetime_utc recs = Some df
    /\ Forall2
         (fun r x =>
            id x = api_id r
            /\ location x = location_name r
            /\ capacity x = api_capacity r
            /\ bays_booked x = api_capacity r - available_spot_count r
            /\ to_datetime_utc (start_datetime r) = Some (start_dt x))
         recs df.
Proof.
  induction recs as [|r recs IH]; intros H.
  - exists []. split; [reflexivity | constructor].
  - destruct IH as (df & E & F); [intros x Hx; apply H; now right|].
    destruct (H r (or_introl eq_refl)) as [t Et].
    cbn [normalize_records]. unfold normalize_record. rewrite Et, E.
    eexists. split; [reflexivity|]. constructor; [|exact F].
    cbn. repeat split. exact Et.
Qed.

(** X13. When the network serves a run of pages whose cache files are
    pairwise distinct and not yet there, the pages hold at least one
    record and the start time of every record parses, [fetch_range]
    returns a frame with one row for each record of the pages, in page
    order, with the identifier, location and capacity of the record and
    with its capacity less its available spots as booked count. *)
Theorem fetch_range_frame_of_pages (urlencode : Params -> string)
    (quote_plus : string -> string) (urljoin : string -> string -> string)
    (get : string -> option Params -> option Page)
    (to_datetime_utc : string -> option Z)
    (pages : list Page) (fuel : nat) (files : Files)
    (start stop : string) (region : Z) :
  serves urljoin get (Some BASE_URL)
    (Some (range_params start stop region)) pages ->
  NoDup (request_files urlencode quote_plus urljoin (Some BASE_URL)
           (Some (range_params start stop region)) pages) ->
  (forall f,
      In f (request_files urlencode quote_plus urljoin (Some BASE_URL)
              (Some (range_params start stop region)) pages) ->
      files f = None) ->
  (List.length pages <= fuel)%nat ->
  flat_map results pages <> [] ->
  (forall r, In r (flat_map results pages) ->
             exists t, to_datetime_utc (start_datetime r) = Some t) ->
  exists df,
    fst (fetch_range urlencode quote_plus urljoin get to_datetime_utc
           fuel files start stop region)
    = Frame df
    /\ Forall2
         (fun r x =>
            id x = api_id r
            /\ location x = location_name r
            /\ capacity x = api_capacity r
            /\ bays_booked x = api_capacity r - available_spot_count r
            /\ to_datetime_utc (start_datetime r) = Some (start_dt x))
         (flat_map results pages) df.
Proof.
  intros Hs ND N L NE T.
  pose proof (fetch_pages_rows urlencode quote_plus urljoin get pages
                fuel files (Some BASE_URL)
                (Some (range_params start stop region)) [] Hs ND N L)
    as R.
  destruct (normalize_records_all to_datetime_utc _ T) as (df & E & F).
  exists df. split; [|exact F].
  unfold fetch_range, fetch_range_rows.
  destruct (fetch_pages urlencode quote_plus urljoin get fuel files
              (Some BASE_URL) (Some (range_params start stop region)) [])
    as [out files'] eqn:P.
  cbn [fst] in R. subst out. cbn [app fst].
  unfold fetch_range_frame.
  destruct (flat_map results pages) as [|r recs]; [congruence|].
  now rewrite E.
Qed.

(** The two pages of [two_page_network], with a parser that accepts
    every text. *)
Lemma fetch_range_frame_of_pages_witness :
  exists df,
    fst (fetch_range (fun _ => "q") (fun u => u)
           (fun base u => (base ++ u)%string) two_page_network
           (fun _ => Some 0) 2 no_files "2022-06-09" "2025-04-29"
           REGION_ID)
    = Frame df
    /\ Forall2
         (fun r x =>
            id x = api_id r
            /\ location x = location_name r
            /\ capacity x = api_capacity r
            /\ bays_booked x = api_capacity r - available_spot_count r
            /\ (fun _ : string => Some 0) (start_datetime r)
               = Some (start_dt x))
         (flat_map results [first_page; last_page]) df.
Proof.
  apply (fetch_range_frame_of_pages (fun _ => "q") (fun u => u)
           (fun base u => (base ++ u)%string) two_page_network
           (fun _ => Some 0) [first_page; last_page] 2 no_files
           "2022-06-09" "2025-04-29" REGION_ID).
  - cbn. repeat split.
  - cbn. repeat constructor; cbn; intuition discriminate.
  - reflexivity.
  - cbn. lia.
  - discriminate.
  - intros r _. now exists 0.
Defined.

Lemma underscores_no_blank (s : string) : contains " " (underscores s) = false.
Proof.
  induction s as [|c s IH]; [reflexivity|].
  cbn [underscores]. rewrite contains_unfold.
  destruct (Ascii.eqb_spec c " ") as [->|N].
  - change (prefix " " (String "_" (underscores s))) with false.
    exact IH.
  - assert (P : prefix " " (String c (underscores s)) = false).
    { cbn [prefix]. destruct (ascii_dec " " c) as [E|_]; [|reflexivity].
      exfalso. apply N. now symmetry. }
    rewrite P. exact IH.
Qed.

Lemma underscores_idem (s : string) :
  underscores (underscores s) = underscores s.
Proof.
  induction s as [|c s IH]; [reflexivity|].
  cbn [underscores]. rewrite IH.
  destruct (Ascii.eqb_spec c " ") as [->|N]; [reflexivity|].
  destruct (Ascii.eqb_spec c " "); [contradiction | reflexivity].
Qed.

Lemma lower_underscores (s : string) :
  lower (underscores s) = underscores (lower s).
Proof.
  induction s as [|c s IH]; [reflexivity|].
  cbn [underscores lower]. rewrite IH. f_equal.
  destruct c as [[|] [|] [|] [|] [|] [|] [|] [|]]; reflexivity.
Qed.

(** X14. The stem of the chart files of a location holds no blank, and
    it is the same for two locations that differ only in letter case
    or in blanks written as underscores: the charts of such locations
    are saved under one name, the later over the earlier. *)
Theorem chart_names_collide :
  (forall loc, exists stem,
      seasonality_png loc = (stem ++ "_seasonality.png")%string
      /\ season_avg_png loc = (stem ++ "_season_avg.png")%string
      /\ contains " " stem = false)
  /\ (forall a b, lower a = lower b ->
        seasonality_png a = seasonality_png b
        /\ season_avg_png a = season_avg_png b)
  /\ (forall loc,
        seasonality_png (underscores loc) = seasonality_png loc
        /\ season_avg_png (underscores loc) = season_avg_png loc)
  /\ seasonality_png "Upper West" = seasonality_png "upper_west".
Proof.
  split; [|split; [|split]].
  - intros loc. exists (underscores (lower loc)).
    repeat split. apply underscores_no_blank.
  - intros a b E. unfold seasonality_png, season_avg_png. now rewrite E.
  - intros loc. unfold seasonality_png, season_avg_png.
    now rewrite lower_underscores, underscores_idem.
  - reflexivity.
Qed.

End FetchProperties.
